(** * Local-file ingestion route of the Onyx web front end

    Shallow embedding of [web/src/app/api/mcp/local-files/route.ts]:
    the fixed-window chunker [chunkContent], the MIME lookup
    [getMimeType], the document post-processing step
    [processDocumentContent] and the two request handlers [GET] and
    [POST] together with their helpers [callMCPServer] and
    [addDocumentToOnyx].

    Conventions of the embedding.
    - A JavaScript string is a sequence of UTF-16 code units; [length] and
      [slice] work on code units.  The chunker is therefore stated over
      [list char] for an arbitrary type [char] of code units.
    - JavaScript numbers that occur here are integers far below 2^53, where
      double arithmetic is exact; they are modelled by [Z].  In particular
      [chunkSize] ranges over the integers.
    - File names, messages and URLs are modelled by [string]; only
      [getMimeType] looks inside one of them.
    - A loop that may run forever is modelled with fuel and returns
      [None] when the fuel is exhausted.
    - [console.log] and friends are not modelled. *)

From Stdlib Require Import ZArith Lia Ascii String DecimalString DecimalZ.
From stdpp Require Import base list strings gmap.

Local Open Scope string_scope.
Local Open Scope Z_scope.

(** ** JavaScript primitives used by the route *)

(** Template-literal conversion of an integer-valued number. *)
Definition number_to_string (n : Z) : string :=
  NilEmpty.string_of_int (Z.to_int n).

(** [String.prototype.slice]: a negative index counts from the end, every
    index is clamped into [0, len], and an empty range yields the empty
    string. *)
Definition clamp_index (len k : Z) : Z :=
  if k <? 0 then Z.max (len + k) 0 else Z.min k len.

(** Ceiling of [a / b] for a positive [b] (see [ceil_div_spec]). *)
Definition ceil_div (a b : Z) : Z := (a + b - 1) / b.

Section Chunker.
Context {char : Type}.

Definition slice (s : list char) (start stop : Z) : list char :=
  let len := Z.of_nat (length s) in
  let from := clamp_index len start in
  let to := clamp_index len stop in
  take (Z.to_nat (Z.max (to - from) 0)) (drop (Z.to_nat from) s).

(** The object literal pushed by [chunkContent]. *)
Record Chunk : Type := mkChunk {
  id : string;
  content : list char;
  index : Z
}.

(** Body of one iteration of the [for] loop, at loop variable [i]. *)
Definition chunk_at (text : list char) (chunkSize i : Z) : Chunk :=
  {| id := "chunk_" +:+ number_to_string i;
     content := slice text i (i + chunkSize);
     index := i / chunkSize |}.

(** [for (let i = 0; i < content.length; i += chunkSize) chunks.push(..)].
    [None] stands for a loop that has not finished within [fuel]
    iterations. *)
Fixpoint chunk_loop (fuel : nat) (text : list char) (chunkSize i : Z)
    (chunks : list Chunk) : option (list Chunk) :=
  if i <? Z.of_nat (length text) then
    match fuel with
    | O => None
    | S fuel' =>
        chunk_loop fuel' text chunkSize (i + chunkSize)
                   (chunks ++ [chunk_at text chunkSize i])
    end
  else Some chunks.

(** [chunkContent(content, chunkSize)].  With a positive [chunkSize] the
    loop variable grows by at least one per iteration, so
    [content.length] iterations always suffice; with [chunkSize <= 0] and
    a non-empty text the loop of the source never ends (see
    [chunk_loop_diverges]). *)
Definition chunkContent (text : list char) (chunkSize : Z)
    : option (list Chunk) :=
  chunk_loop (length text) text chunkSize 0 [].

(** Default value of the [chunkSize] parameter. *)
Definition default_chunkSize : Z := 1000.

(** Number of iterations of the loop: the ceiling of
    [length text / chunkSize]. *)
Definition chunk_count (text : list char) (chunkSize : Z) : nat :=
  Z.to_nat (ceil_div (Z.of_nat (length text)) chunkSize).

(** The [j]-th chunk in closed form. *)
Definition nth_chunk (text : list char) (chunkSize : Z) (j : nat) : Chunk :=
  chunk_at text chunkSize (Z.of_nat j * chunkSize).

(** Reassembly of a text from chunk contents that share [overlap]
    characters with their predecessor: the first content is kept, every
    later one loses its leading [overlap] characters. *)
Definition strip_overlaps (overlap : nat) (cs : list (list char))
    : list char :=
  match cs with
  | [] => []
  | c :: rest => c ++ concat (map (drop overlap) rest)
  end.

(** Trailing and leading [k] characters of a chunk content. *)
Definition trailing (k : nat) (c : list char) : list char :=
  drop (length c - k) c.
Definition leading (k : nat) (c : list char) : list char := take k c.

(** Two consecutive chunks share [k] characters when the last [k]
    characters of the first are the first [k] characters of the second. *)
Definition shares_overlap (k : nat) (c1 c2 : Chunk) : Prop :=
  trailing k (content c1) = leading k (content c2).

(** The overlap that the repository's guide documents for the chunker
    (MCP_FILE_SYNC_GUIDE.md, "Content Chunking": chunk size 1000
    characters, "Overlap: 200 characters between chunks").  The source
    has no such parameter. *)
Definition documented_overlap : nat := 200.

End Chunker.

Arguments Chunk : clear implicits.
Arguments mkChunk {char} _ _ _.

(** Text literals for examples: the code units of an ASCII string. *)
Definition text_of (s : string) : list ascii := list_ascii_of_string s.

(** The chunks of "abcd" in windows of 2 and of "Hi there. Bye now" in
    windows of 12. *)
Definition ab_chunk : Chunk ascii := mkChunk "chunk_0" (text_of "ab") 0.
Definition cd_chunk : Chunk ascii := mkChunk "chunk_2" (text_of "cd") 1.
Definition hi_chunk : Chunk ascii :=
  mkChunk "chunk_0" (text_of "Hi there. By") 0.
Definition now_chunk : Chunk ascii := mkChunk "chunk_12" (text_of "e now") 1.

(** ** JavaScript values, truthiness and property lookup *)

Inductive JSValue : Type :=
| VUndefined
| VBoolean (b : bool)
| VNumber (n : Z)
| VString (s : string)
| VFunction (name : string)
| VObject (name : string).

Definition is_string (v : JSValue) : bool :=
  match v with VString _ => true | _ => false end.

(** [ToBoolean]. *)
Definition truthy (v : JSValue) : bool :=
  match v with
  | VUndefined => false
  | VBoolean b => b
  | VNumber n => negb (n =? 0)
  | VString s => negb (String.eqb s EmptyString)
  | VFunction _ | VObject _ => true
  end.

(** [a || b]. *)
Definition js_or (a b : JSValue) : JSValue := if truthy a then a else b.

(** [s || d] for an optional string [s]: [undefined] and the empty string are
    falsy. *)
Definition string_or (s : option string) (d : string) : string :=
  match s with
  | Some s' => if String.eqb s' EmptyString then d else s'
  | None => d
  end.

(** Properties every object literal inherits from [Object.prototype]
    (ECMAScript, including the legacy accessors of Annex B). *)
Definition Object_prototype : gmap string JSValue :=
  list_to_map
    [("constructor", VFunction "Object");
     ("__proto__", VObject "Object.prototype");
     ("hasOwnProperty", VFunction "hasOwnProperty");
     ("isPrototypeOf", VFunction "isPrototypeOf");
     ("propertyIsEnumerable", VFunction "propertyIsEnumerable");
     ("toLocaleString", VFunction "toLocaleString");
     ("toString", VFunction "toString");
     ("valueOf", VFunction "valueOf");
     ("__defineGetter__", VFunction "__defineGetter__");
     ("__defineSetter__", VFunction "__defineSetter__");
     ("__lookupGetter__", VFunction "__lookupGetter__");
     ("__lookupSetter__", VFunction "__lookupSetter__")].

(** [obj[key]] for an object literal [obj] whose own properties are
    strings: own properties first, then the prototype chain, [undefined]
    when neither has the key. *)
Definition get_property (own : gmap string string) (key : string) : JSValue :=
  match own !! key with
  | Some s => VString s
  | None => default VUndefined (Object_prototype !! key)
  end.

(** ** getMimeType

    File names are modelled by [string]: code units below 256, on which
    [toLowerCase] maps A-Z and the upper-case letters of Latin-1 to their
    lower-case counterparts and leaves every other code unit alone. *)

(** [s.split(sep)] for a one-character separator; the result is never
    empty. *)
Fixpoint split (sep : ascii) (s : string) : list string :=
  match s with
  | EmptyString => [EmptyString]
  | String c rest =>
      if Ascii.eqb c sep then EmptyString :: split sep rest
      else match split sep rest with
           | seg :: segs => String c seg :: segs
           | [] => [String c EmptyString]
           end
  end.

(** [arr.pop()]: the last element, [undefined] for an empty array. *)
Definition pop (arr : list string) : option string := last arr.

Definition lower_code_unit (c : ascii) : ascii :=
  let n := N_of_ascii c in
  if ((65 <=? n) && (n <=? 90))%N
     || ((192 <=? n) && (n <=? 222) && negb (n =? 215))%N
  then ascii_of_N (n + 32)
  else c.

Fixpoint toLowerCase (s : string) : string :=
  match s with
  | EmptyString => EmptyString
  | String c rest => String (lower_code_unit c) (toLowerCase rest)
  end.

Definition mimeTypes : gmap string string :=
  list_to_map
    [("pdf", "application/pdf");
     ("docx",
      "application/vnd.openxmlformats-officedocument.wordprocessingml.document");
     ("txt", "text/plain");
     ("md", "text/markdown");
     ("html", "text/html");
     ("jpg", "image/jpeg");
     ("png", "image/png")].

(** The seven keys of [mimeTypes]. *)
Definition recognized_extensions : list string :=
  ["pdf"; "docx"; "txt"; "md"; "html"; "jpg"; "png"].

(** [fileName.split('.').pop()?.toLowerCase()]. *)
Definition file_extension (fileName : string) : option string :=
  toLowerCase <$> pop (split "." fileName).

(** The function is declared to return [string]; the embedding keeps the
    value that the expression really evaluates to. *)
Definition getMimeType (fileName : string) : JSValue :=
  let ext := file_extension fileName in
  js_or (get_property mimeTypes (string_or ext EmptyString))
        (VString "application/octet-stream").


(** ** Effects of the request handlers

    A handler run produces a completion (a value, a thrown value, or no
    completion at all) and the list of HTTP requests it has sent, in
    order. *)

(** Values that reach a [catch] clause. *)
Inductive Thrown : Type :=
| ErrorObject (message : string)
| OtherValue.

(** [error instanceof Error ? error.message : 'Unknown error']. *)
Definition message_or_unknown (e : Thrown) : string :=
  match e with
  | ErrorObject m => m
  | OtherValue => "Unknown error"
  end.

Inductive Completion (A : Type) : Type :=
| Normal (a : A)
| Throw (e : Thrown)
| Diverges.

Arguments Normal {A} _.
Arguments Throw {A} _.
Arguments Diverges {A}.

Definition IO (Ev A : Type) : Type := Completion A * list Ev.

Definition ret {Ev A} (a : A) : IO Ev A := (Normal a, []).
Definition throw {Ev A} (e : Thrown) : IO Ev A := (Throw e, []).
Definition emit {Ev} (ev : Ev) : IO Ev unit := (Normal tt, [ev]).

Definition bind {Ev A B} (m : IO Ev A) (k : A -> IO Ev B) : IO Ev B :=
  match m with
  | (Normal a, log) => let '(r, log') := k a in (r, (log ++ log')%list)
  | (Throw e, log) => (Throw e, log)
  | (Diverges, log) => (Diverges, log)
  end.

(** [try { body } catch (error) { handler }]. *)
Definition try_catch {Ev A} (body : IO Ev A) (handler : Thrown -> IO Ev A)
    : IO Ev A :=
  match body with
  | (Throw e, log) => let '(r, log') := handler e in (r, (log ++ log')%list)
  | done => done
  end.

Notation "'let!' x ':=' m 'in' k" := (bind m (fun x => k))
  (at level 10, x pattern, m at level 100, k at level 200).

(** Result of [await fetch(..)] followed by [response.json()]. *)
Record HttpResponse (Body : Type) : Type := mkHttpResponse {
  http_status : Z;
  http_json : Thrown + Body
}.
Arguments mkHttpResponse {Body} _ _.
Arguments http_status {Body} _.
Arguments http_json {Body} _.

Inductive FetchResult (Body : Type) : Type :=
| Rejected (e : Thrown)
| Resolved (r : HttpResponse Body).
Arguments Rejected {Body} _.
Arguments Resolved {Body} _.

(** A parsed JSON body: the value [null], or any other value, seen through
    the members that the route reads (a value that is not an object has
    none of them). *)
Inductive Json (Members : Type) : Type :=
| JsonNull
| JsonValue (members : Members).
Arguments JsonNull {Members}.
Arguments JsonValue {Members} _.

(** The [TypeError] that V8, the engine of Node, throws for the member
    access [null.member]. *)
Definition null_member_error (member : string) : Thrown :=
  ErrorObject
    ("Cannot read properties of null (reading '" +:+ member +:+ "')").

(** [response.ok]: the status is in the range 200-299. *)
Definition http_ok {Body} (r : HttpResponse Body) : bool :=
  (200 <=? http_status r) && (http_status r <=? 299).

(** ** Data exchanged with the MCP server and with Onyx *)

Inductive FileKind : Type := file | folder.

Record LocalFile : Type := mkLocalFile {
  name : string;
  path : string;
  type : FileKind;
  size : option Z;
  lastModified : option string
}.

(** [result.content] of a tool call: base64 text for [read_file], an array
    of entries for [list_directory]. *)
Inductive McpContent : Type :=
| Text (s : string)
| Files (fs : list LocalFile).

Definition content_truthy (c : option McpContent) : bool :=
  match c with
  | None => false
  | Some (Text s) => negb (String.eqb s EmptyString)
  | Some (Files _) => true
  end.

Record McpResult : Type := mkMcpResult {
  result_content : option McpContent;
  result_metadata : option (gmap string JSValue)
}.

(** The member [data.error] of a reply that has one: a falsy value, or a
    truthy value together with the text that the template literal gives
    for [data.error.message] ("undefined" when there is no message). *)
Inductive ErrorMember : Type :=
| FalsyError
| TruthyError (message_text : string).

(** The text of [data.error.message] when [data.error] is truthy; [None]
    when the member is absent or falsy. *)
Definition truthy_error_text (e : option ErrorMember) : option string :=
  match e with
  | Some (TruthyError message_text) => Some message_text
  | Some FalsyError | None => None
  end.

(** The members of the JSON-RPC reply [data] that the route reads:
    [data.error] and [data.result], each [None] when absent.  In a result,
    [result_metadata] holds the own properties of a truthy
    [result.metadata]. *)
Record McpData : Type := mkMcpData {
  data_error : option ErrorMember;
  data_result : option McpResult
}.

(** [arguments] of a tool call. *)
Inductive McpArgs : Type :=
| ListDirectoryArgs (dir_path : string)
| ReadFileArgs (path file_name : string).

(** The object returned by [callMCPServer]. *)
Inductive McpResponse : Type :=
| McpSuccess (content : McpContent) (metadata : gmap string JSValue)
| McpFailure (error : string).

Definition mcp_success (r : McpResponse) : bool :=
  match r with McpSuccess _ _ => true | McpFailure _ => false end.

Section Route.
Context {char : Type}.

(** The object built by [processDocumentContent]. *)
Record DocumentData : Type := mkDocumentData {
  doc_fileName : string;
  doc_content : list char;
  doc_chunks : list (Chunk char);
  doc_metadata : gmap string JSValue
}.

(** JSON body posted to [/api/documents]. *)
Record OnyxDocument : Type := mkOnyxDocument {
  onyx_name : string;
  onyx_content : list char;
  onyx_chunks : list (Chunk char);
  onyx_metadata : gmap string JSValue;
  onyx_source : string
}.

Record OnyxData : Type := mkOnyxData {
  document_id : JSValue;
  file_id : JSValue
}.

(** The object returned by [addDocumentToOnyx]; it has no [error]
    property. *)
Record OnyxResponse : Type := mkOnyxResponse {
  onyx_success : bool;
  onyx_documentId : JSValue;
  onyx_fileId : JSValue;
  onyx_chunk_total : nat;
  onyx_warning : option string
}.

Inductive Event : Type :=
| McpRequest (url tool : string) (args : McpArgs)
| OnyxRequest (url authorization : string) (doc : OnyxDocument).

(** Everything outside the route: the process environment, the two
    servers, the clock, the random generator and Node's [Buffer]
    decoder.  [toISOString k] and [random36 k] are the values of the
    [k]-th evaluation of [new Date().toISOString()] and of
    [Math.random().toString(36).substr(2, 9)] in a handler run;
    [base64_utf8 c] is [Buffer.from(c, 'base64').toString('utf-8')]. *)
Record World : Type := mkWorld {
  getenv : string -> option string;
  mcp_server : string -> string -> McpArgs -> FetchResult (Json McpData);
  onyx_backend :
    string -> string -> OnyxDocument -> FetchResult (Json OnyxData);
  toISOString : nat -> string;
  random36 : nat -> string;
  base64_utf8 : McpContent -> list char
}.

Variable w : World.

(** [process.env.NAME || fallback]. *)
Definition env_or (var fallback : string) : string :=
  string_or (getenv w var) fallback.

(** [await fetch(..)], the [response.ok] test and [await response.json()]
    as used by both helpers. *)
Definition fetch_json {Body} (ev : Event) (r : FetchResult Body)
    (not_ok_prefix : string) : IO Event Body :=
  let! _ := emit ev in
  match r with
  | Rejected e => throw e
  | Resolved resp =>
      if negb (http_ok resp) then
        throw (ErrorObject
                 (not_ok_prefix +:+ number_to_string (http_status resp)))
      else
        match http_json resp with
        | inl e => throw e
        | inr data => ret data
        end
  end.

Definition callMCPServer (tool : string) (params : McpArgs)
    : IO Event McpResponse :=
  try_catch
    (let mcpServerUrl := env_or "MCP_SERVER_URL" "http://localhost:8001" in
     let url := mcpServerUrl +:+ "/mcp" in
     let! data := fetch_json (McpRequest url tool params)
                        (mcp_server w url tool params)
                        "MCP server responded with status: " in
     match data with
     | JsonNull => throw (null_member_error "error")
     | JsonValue data =>
         match truthy_error_text (data_error data) with
         | Some message =>
             throw (ErrorObject ("MCP server error: " +:+ message))
         | None =>
             let content := data_result data ≫= result_content in
             let metadata := data_result data ≫= result_metadata in
             ret (McpSuccess
                    (if content_truthy content
                     then default (Text EmptyString) content
                     else Text EmptyString)
                    (default ∅ metadata))
         end
     end)
    (fun error =>
       ret (McpFailure
              ("MCP server call failed: " +:+ message_or_unknown error))).

Definition processDocumentContent (fileName filePath fileType : string)
    (content : McpContent) (metadata : gmap string JSValue)
    : IO Event DocumentData :=
  let textContent := base64_utf8 w content in
  match chunkContent textContent default_chunkSize with
  | None => (Diverges, [])
  | Some chunks =>
      let processedMetadata :=
        <["mcpProcessed" := VBoolean true]>
        (<["source" := VString "local_file"]>
        (<["originalSize" := VNumber (Z.of_nat (length textContent))]>
        (<["chunkCount" := VNumber (Z.of_nat (length chunks))]>
        (<["processedAt" := VString (toISOString w 0)]>
        (<["fileType" := VString fileType]>
        (<["filePath" := VString filePath]>
        (<["fileName" := VString fileName]> metadata))))))) in
      ret {| doc_fileName := fileName;
             doc_content := textContent;
             doc_chunks := chunks;
             doc_metadata := processedMetadata |}
  end.

Definition addDocumentToOnyx (documentData : DocumentData)
    : IO Event OnyxResponse :=
  try_catch
    (let onyxBackendUrl :=
       env_or "ONYX_BACKEND_URL" "http://localhost:8080" in
     let url := onyxBackendUrl +:+ "/api/documents" in
     let authorization :=
       "Bearer " +:+ env_or "ONYX_API_KEY" EmptyString in
     let doc := {| onyx_name := doc_fileName documentData;
                   onyx_content := doc_content documentData;
                   onyx_chunks := doc_chunks documentData;
                   onyx_metadata := doc_metadata documentData;
                   onyx_source := "mcp_local_file" |} in
     let! result := fetch_json (OnyxRequest url authorization doc)
                          (onyx_backend w url authorization doc)
                          "Onyx backend responded with status: " in
     match result with
     | JsonNull => throw (null_member_error "document_id")
     | JsonValue result =>
         ret {| onyx_success := true;
                onyx_documentId := document_id result;
                onyx_fileId := file_id result;
                onyx_chunk_total := length (doc_chunks documentData);
                onyx_warning := None |}
     end)
    (fun _ =>
       ret {| onyx_success := true;
              onyx_documentId := VString ("doc_" +:+ random36 w 0);
              onyx_fileId := VString ("file_" +:+ random36 w 1);
              onyx_chunk_total := length (doc_chunks documentData);
              onyx_warning :=
                Some "Onyx backend not available - using fallback" |}).

(** JSON bodies of the route's answers. *)
Inductive ResponseBody : Type :=
| Listing (success : bool) (files : McpContent) (warning : option string)
| Ingested (success : bool) (message : string) (documentId fileId : JSValue)
           (chunks : nat) (metadata : gmap string JSValue)
| Failed (success : bool) (error : string).

Record NextResponse : Type := mkNextResponse {
  status : Z;
  body : ResponseBody
}.


Definition mockLocalFiles : list LocalFile :=
  [ {| name := "Documents"; path := "/Documents"; type := folder;
       size := None; lastModified := Some (toISOString w 0) |};
    {| name := "Downloads"; path := "/Downloads"; type := folder;
       size := None; lastModified := Some (toISOString w 1) |};
    {| name := "Desktop"; path := "/Desktop"; type := folder;
       size := None; lastModified := Some (toISOString w 2) |} ].

Definition GET : IO Event NextResponse :=
  try_catch
    (let! mcpResponse := callMCPServer "list_directory"
       (ListDirectoryArgs (env_or "ALLOWED_DIRECTORY" "/Users")) in
     match mcpResponse with
     | McpFailure error =>
         throw (ErrorObject ("MCP server error: " +:+ error))
     | McpSuccess content _ =>
         let files :=
           if content_truthy (Some content) then content else Files [] in
         ret {| status := 200; body := Listing true files None |}
     end)
    (fun _ =>
       ret {| status := 200;
              body := Listing true (Files mockLocalFiles)
                (Some "Using fallback data - MCP server not available") |}).

(** The parsed request body: [filePath], [fileName] and [fileType]. *)
Record IngestRequest : Type := mkIngestRequest {
  filePath : string;
  fileName : string;
  fileType : string
}.

(** [request] is the outcome of [await request.json()] and of the
    destructuring of its value: [inl e] when either of them throws [e]
    (a body that does not parse, the body [null]). *)
Definition POST (request : Thrown + IngestRequest) : IO Event NextResponse :=
  try_catch
    (let! req := match request with
                 | inl e => throw e
                 | inr req => ret req
                 end in
     let! mcpResponse := callMCPServer "read_file"
       (ReadFileArgs (filePath req) (fileName req)) in
     match mcpResponse with
     | McpFailure error =>
         throw (ErrorObject ("MCP server error: " +:+ error))
     | McpSuccess content metadata =>
         let! documentData := processDocumentContent
           (fileName req) (filePath req) (fileType req) content metadata in
         let! onyxResponse := addDocumentToOnyx documentData in
         if negb (onyx_success onyxResponse) then
           throw (ErrorObject
                    ("Onyx integration error: " +:+ "Unknown error"))
         else
           ret {| status := 200;
                  body := Ingested true
                    ("Successfully ingested " +:+ fileName req
                     +:+ " into Onyx")
                    (onyx_documentId onyxResponse)
                    (onyx_fileId onyxResponse)
                    (onyx_chunk_total onyxResponse)
                    (doc_metadata documentData) |}
     end)
    (fun error =>
       ret {| status := 500;
              body := Failed false
                ("Failed to ingest file: " +:+ message_or_unknown error) |}).

End Route.

Arguments World : clear implicits.
Arguments Event : clear implicits.
Arguments DocumentData : clear implicits.
Arguments OnyxDocument : clear implicits.

(** ** Downstream failures, as the helpers detect them *)

(** The message of the error that [callMCPServer] catches for a given
    outcome of its [fetch]: a rejected request, a status outside 200-299, a
    body that does not parse, the body [null], or a truthy JSON-RPC
    [error] member.  [None] when the call goes through. *)
Definition mcp_failure_message (r : FetchResult (Json McpData))
    : option string :=
  match r with
  | Rejected e => Some (message_or_unknown e)
  | Resolved resp =>
      if negb (http_ok resp) then
        Some ("MCP server responded with status: "
              +:+ number_to_string (http_status resp))
      else
        match http_json resp with
        | inl e => Some (message_or_unknown e)
        | inr JsonNull => Some (message_or_unknown (null_member_error "error"))
        | inr (JsonValue data) =>
            match truthy_error_text (data_error data) with
            | Some message => Some ("MCP server error: " +:+ message)
            | None => None
            end
        end
  end.

Definition mcp_failed (r : FetchResult (Json McpData)) : bool :=
  match mcp_failure_message r with Some _ => true | None => false end.

(** A [fetch] of the Onyx backend fails when it is rejected, answers
    outside 200-299, or sends a body that does not parse or is [null]. *)
Definition fetch_failed {Body} (r : FetchResult (Json Body)) : bool :=
  match r with
  | Rejected _ => true
  | Resolved resp =>
      negb (http_ok resp)
      || match http_json resp with
         | inl _ | inr JsonNull => true
         | inr (JsonValue _) => false
         end
  end.

(** [hay.includes(needle)]. *)
Fixpoint includes (needle hay : string) : bool :=
  String.prefix needle hay
  || match hay with
     | EmptyString => false
     | String _ rest => includes needle rest
     end.

Section RouteRequests.
Context {char : Type} (w : World char).

(** URL and reply of the MCP request that [callMCPServer] sends. *)
Definition mcp_url : string :=
  env_or w "MCP_SERVER_URL" "http://localhost:8001" +:+ "/mcp".
Definition mcp_reply (tool : string) (args : McpArgs)
    : FetchResult (Json McpData) :=
  mcp_server w mcp_url tool args.

(** URL, credentials and reply of the request that [addDocumentToOnyx]
    sends for a document. *)
Definition onyx_url : string :=
  env_or w "ONYX_BACKEND_URL" "http://localhost:8080" +:+ "/api/documents".
Definition onyx_authorization : string :=
  "Bearer " +:+ env_or w "ONYX_API_KEY" EmptyString.
Definition onyx_document (d : DocumentData char) : OnyxDocument char :=
  {| onyx_name := doc_fileName d;
     onyx_content := doc_content d;
     onyx_chunks := doc_chunks d;
     onyx_metadata := doc_metadata d;
     onyx_source := "mcp_local_file" |}.
Definition onyx_reply (d : DocumentData char)
    : FetchResult (Json OnyxData) :=
  onyx_backend w onyx_url onyx_authorization (onyx_document d).

Definition list_directory_args : McpArgs :=
  ListDirectoryArgs (env_or w "ALLOWED_DIRECTORY" "/Users").
Definition read_file_args (req : IngestRequest) : McpArgs :=
  ReadFileArgs (filePath req) (fileName req).

End RouteRequests.

(** ** Concrete worlds for closed examples

    No environment variable is set; the clock and the random generator
    return fixed strings; the decoder knows the one payload that the
    examples send: "SGk=" is the base64 form of "Hi". *)
Definition example_world
    (mcp : string -> McpArgs -> FetchResult (Json McpData))
    (onyx : FetchResult (Json OnyxData)) : World ascii :=
  {| getenv := fun _ => None;
     mcp_server := fun _ tool args => mcp tool args;
     onyx_backend := fun _ _ _ => onyx;
     toISOString := fun _ => "2024-01-01T00:00:00.000Z";
     random36 := fun k => match k with O => "k3j9x0q2a" | _ => "p0o9i8u7y" end;
     base64_utf8 := fun c =>
       match c with
       | Text s => if String.eqb s "SGk=" then text_of "Hi" else []
       | Files _ => []
       end |}.

(** An MCP server that lists one file and serves its content. *)
Definition serving_mcp_server (tool : string) (args : McpArgs)
    : FetchResult (Json McpData) :=
  let content :=
    match args with
    | ListDirectoryArgs _ =>
        Files [ {| name := "notes.txt"; path := "/Users/notes.txt";
                   type := file; size := Some 2; lastModified := None |} ]
    | ReadFileArgs _ _ => Text "SGk="
    end in
  Resolved {| http_status := 200;
              http_json := inr (JsonValue
                {| data_error := None;
                   data_result := Some {| result_content := Some content;
                                          result_metadata := None |} |}) |}.

(** Both servers are unreachable. *)
Definition offline_world : World ascii :=
  example_world (fun _ _ => Rejected (ErrorObject "fetch failed"))
                (Rejected (ErrorObject "fetch failed")).

(** The MCP server serves the file; Onyx is unreachable. *)
Definition onyx_down_world : World ascii :=
  example_world
    serving_mcp_server
    (Rejected (ErrorObject "fetch failed")).

(** Both servers answer. *)
Definition healthy_world : World ascii :=
  example_world
    serving_mcp_server
    (Resolved {| http_status := 200;
                 http_json := inr (JsonValue
                   {| document_id := VString "doc_1";
                      file_id := VString "file_1" |}) |}).

(** The MCP server relays an operating-system error in a JSON-RPC error. *)
Definition raw_system_error : string :=
  "EACCES: permission denied, open '/home/alice/.ssh/id_rsa'".

Definition denying_world : World ascii :=
  example_world
    (fun _ _ =>
       Resolved {| http_status := 200;
                   http_json := inr (JsonValue
                     {| data_error := Some (TruthyError raw_system_error);
                        data_result := None |}) |})
    (Rejected (ErrorObject "fetch failed")).


(** A processed document, as [processDocumentContent] hands it to
    [addDocumentToOnyx]. *)
Definition sample_document : DocumentData ascii :=
  {| doc_fileName := "notes.txt";
     doc_content := text_of "Hi";
     doc_chunks := [mkChunk "chunk_0" (text_of "Hi") 0];
     doc_metadata := ∅ |}.

Definition notes_request : IngestRequest :=
  {| filePath := "/Users/notes.txt";
     fileName := "notes.txt";
     fileType := "file" |}.

(** The MCP server answers 404 although the body carries a result. *)
Definition not_found_world : World ascii :=
  example_world
    (fun _ _ =>
       Resolved {| http_status := 404;
                   http_json := inr (JsonValue
                     {| data_error := None;
                        data_result := Some
                          {| result_content := Some (Text "SGk=");
                             result_metadata := None |} |}) |})
    (Rejected (ErrorObject "fetch failed")).

(** The reply of [serving_mcp_server] to a [list_directory] call. *)
Definition listing_data : McpData :=
  {| data_error := None;
     data_result := Some
       {| result_content := Some
            (Files [ {| name := "notes.txt"; path := "/Users/notes.txt";
                        type := file; size := Some 2;
                        lastModified := None |} ]);
          result_metadata := None |} |}.

Definition listing_response : HttpResponse (Json McpData) :=
  {| http_status := 200; http_json := inr (JsonValue listing_data) |}.

(** The MCP server and the Onyx backend both answer 200 with the JSON
    body [null]. *)
Definition null_body_world : World ascii :=
  example_world
    (fun _ _ => Resolved {| http_status := 200; http_json := inr JsonNull |})
    (Resolved {| http_status := 200; http_json := inr JsonNull |}).

(** The listing that [GET] passes on for the [result.content] of a
    successful call: [content || ''] in [callMCPServer], then
    [content || []] in [GET]. *)
Definition listed_files (content : option McpContent) : McpContent :=
  match content with
  | Some (Files fs) => Files fs
  | Some (Text s) => if String.eqb s EmptyString then Files [] else Text s
  | None => Files []
  end.

(** The keys that [processDocumentContent] writes after the spread of the
    metadata of the MCP server. *)
Definition processed_keys : list string :=
  ["fileName"; "filePath"; "fileType"; "processedAt"; "chunkCount";
   "originalSize"; "source"; "mcpProcessed"].

(** ** Auxiliary notions for the MIME lookup *)

(** [s.includes(c)] for a single code unit [c]. *)
Fixpoint has_code_unit (c : ascii) (s : string) : bool :=
  match s with
  | EmptyString => false
  | String c' rest => Ascii.eqb c' c || has_code_unit c rest
  end.

(** The key that [getMimeType] looks up: [ext || '']. *)
Definition extension_key (fileName : string) : string :=
  string_or (file_extension fileName) EmptyString.

(** * Properties *)

(** ** The chunker *)

Lemma ceil_div_spec (a b : Z) :
  0 < b -> (ceil_div a b - 1) * b < a <= ceil_div a b * b.
Proof.
  intros Hb. unfold ceil_div.
  pose proof (Z.div_mod (a + b - 1) b ltac:(lia)) as Hdm.
  pose proof (Z.mod_pos_bound (a + b - 1) b Hb) as Hm.
  nia.
Qed.

Lemma ceil_div_nonneg (a b : Z) : 0 <= a -> 0 < b -> 0 <= ceil_div a b.
Proof.
  intros Ha Hb. unfold ceil_div. apply Z.div_pos; lia.
Qed.

Section ChunkerProperties.
Context {char : Type}.
Implicit Types (text : list char) (chunkSize : Z).

(** On a range [0 <= a <= b], [slice] is [take] after [drop]. *)
Lemma slice_nonneg text (a b : Z) :
  0 <= a <= b ->
  slice text a b = take (Z.to_nat (b - a)) (drop (Z.to_nat a) text).
Proof.
  intros [Ha Hab]. unfold slice, clamp_index.
  assert ((a <? 0) = false) as -> by lia.
  assert ((b <? 0) = false) as -> by lia.
  set (len := Z.of_nat (length text)).
  destruct (Z.le_gt_cases a len) as [Hal | Hal].
  - rewrite (Z.min_l a len) by lia.
    destruct (Z.le_gt_cases b len) as [Hbl | Hbl].
    + rewrite (Z.min_l b len) by lia. f_equal. lia.
    + rewrite (Z.min_r b len) by lia.
      rewrite !take_ge; [done | |]; rewrite length_drop; subst len; lia.
  - rewrite (Z.min_r a len), (Z.min_r b len) by lia.
    rewrite !drop_ge by (subst len; lia). by rewrite !take_nil.
Qed.

Lemma nth_chunk_content text chunkSize (j : nat) :
  0 < chunkSize ->
  content (nth_chunk text chunkSize j)
  = take (Z.to_nat chunkSize) (drop (j * Z.to_nat chunkSize) text).
Proof.
  intros Hcs. unfold nth_chunk, chunk_at; simpl.
  rewrite slice_nonneg by nia.
  f_equal; [f_equal; lia | f_equal; nia].
Qed.

Lemma nth_chunk_index text chunkSize (j : nat) :
  0 < chunkSize -> index (nth_chunk text chunkSize j) = Z.of_nat j.
Proof.
  intros Hcs. unfold nth_chunk, chunk_at; simpl.
  apply Z.div_mul. lia.
Qed.

Lemma nth_chunk_length text chunkSize (j : nat) :
  0 < chunkSize ->
  Z.of_nat (length (content (nth_chunk text chunkSize j))) <= chunkSize.
Proof.
  intros Hcs. rewrite nth_chunk_content, length_take by done. lia.
Qed.

(** The loop test succeeds exactly below [chunk_count]. *)
Lemma loop_test_chunk_count text chunkSize (k : nat) :
  0 < chunkSize ->
  (Z.of_nat k * chunkSize <? Z.of_nat (length text)) = true
  <-> (k < chunk_count text chunkSize)%nat.
Proof.
  intros Hcs. unfold chunk_count.
  pose proof (ceil_div_spec (Z.of_nat (length text)) chunkSize Hcs).
  pose proof (ceil_div_nonneg (Z.of_nat (length text)) chunkSize
                (ltac:(lia)) Hcs).
  rewrite Z.ltb_lt. split; intros; nia.
Qed.

(** Loop invariant: after [k] iterations the accumulator holds the first
    [k] chunks of the closed form. *)
Lemma chunk_loop_closed_form text chunkSize (fuel k : nat) :
  0 < chunkSize ->
  (k <= chunk_count text chunkSize)%nat ->
  (chunk_count text chunkSize - k <= fuel)%nat ->
  chunk_loop fuel text chunkSize (Z.of_nat k * chunkSize)
             (map (nth_chunk text chunkSize) (seq 0 k))
  = Some (map (nth_chunk text chunkSize)
              (seq 0 (chunk_count text chunkSize))).
Proof.
  intros Hcs. revert k.
  induction fuel as [| fuel IH]; intros k Hk Hfuel.
  - assert (k = chunk_count text chunkSize) as Hk' by lia.
    simpl.
    destruct (Z.of_nat k * chunkSize <? Z.of_nat (length text)) eqn:Htest.
    + apply loop_test_chunk_count in Htest; [lia | done].
    + by rewrite <- Hk'.
  - simpl.
    destruct (Z.of_nat k * chunkSize <? Z.of_nat (length text)) eqn:Htest.
    + apply loop_test_chunk_count in Htest; [| done].
      replace (Z.of_nat k * chunkSize + chunkSize)
        with (Z.of_nat (S k) * chunkSize) by lia.
      replace (map (nth_chunk text chunkSize) (seq 0 k)
               ++ [chunk_at text chunkSize (Z.of_nat k * chunkSize)])%list
        with (map (nth_chunk text chunkSize) (seq 0 (S k)))
        by (by rewrite seq_S, map_app).
      apply IH; lia.
    + assert (¬ (k < chunk_count text chunkSize)%nat) as Hge.
      { intros Hlt. apply loop_test_chunk_count in Hlt; [| done].
        congruence. }
      by replace (chunk_count text chunkSize) with k by lia.
Qed.

(** [chunkContent] returns, and returns the closed form. *)
Lemma chunkContent_closed_form text chunkSize :
  0 < chunkSize ->
  chunkContent text chunkSize
  = Some (map (nth_chunk text chunkSize)
              (seq 0 (chunk_count text chunkSize))).
Proof.
  intros Hcs. unfold chunkContent.
  apply (chunk_loop_closed_form text chunkSize (length text) 0 Hcs);
    [lia |].
  unfold chunk_count.
  pose proof (ceil_div_spec (Z.of_nat (length text)) chunkSize Hcs).
  pose proof (ceil_div_nonneg (Z.of_nat (length text)) chunkSize
                (ltac:(lia)) Hcs).
  nia.
Qed.

(** With a non-positive [chunkSize] and a non-empty text the loop never
    finishes, whatever the fuel. *)
Lemma chunk_loop_diverges text chunkSize (fuel : nat) (i : Z) chunks :
  chunkSize <= 0 -> i < Z.of_nat (length text) ->
  chunk_loop fuel text chunkSize i chunks = None.
Proof.
  intros Hcs. revert i chunks.
  induction fuel as [| fuel IH]; intros i chunks Hi; simpl;
    (assert ((i <? Z.of_nat (length text)) = true) as -> by lia).
  - done.
  - apply IH. lia.
Qed.

(** [None] is returned exactly when the loop of the source does not end. *)
Lemma chunkContent_None_iff text chunkSize :
  chunkContent text chunkSize = None <-> chunkSize <= 0 /\ text <> [].
Proof.
  split.
  - intros Hnone. destruct (Z.le_gt_cases chunkSize 0) as [Hle | Hgt].
    + split; [done |]. by intros ->.
    + by rewrite chunkContent_closed_form in Hnone by lia.
  - intros [Hle Htext]. apply chunk_loop_diverges; [done |].
    destruct text; [done | simpl; lia].
Qed.

(** The first [n] chunk contents, concatenated, are the first
    [n * chunkSize] characters of the text. *)
Lemma concat_nth_chunks text chunkSize (n : nat) :
  0 < chunkSize ->
  concat (map content (map (nth_chunk text chunkSize) (seq 0 n)))
  = take (n * Z.to_nat chunkSize) text.
Proof.
  intros Hcs. induction n as [| n IH].
  - done.
  - rewrite seq_S, !map_app, concat_app, IH.
    cbn [map concat Nat.add].
    rewrite app_nil_r, nth_chunk_content by done.
    rewrite take_take_drop. f_equal. lia.
Qed.

Lemma strip_overlaps_0 (cs : list (list char)) :
  strip_overlaps 0 cs = concat cs.
Proof.
  destruct cs as [| c rest]; [done |]. simpl. f_equal.
  induction rest as [| r rest IH]; [done |]. simpl. by rewrite IH.
Qed.

(** Every chunk of the result is the window of the text that starts at
    its position times [chunkSize]. *)
Lemma chunkContent_lookup text chunkSize chunks (j : nat) (c : Chunk char) :
  0 < chunkSize ->
  chunkContent text chunkSize = Some chunks ->
  chunks !! j = Some c ->
  c = nth_chunk text chunkSize j.
Proof.
  intros Hcs Hrun Hj.
  rewrite chunkContent_closed_form in Hrun by done.
  injection Hrun as <-.
  rewrite list_lookup_fmap in Hj.
  destruct (seq 0 (chunk_count text chunkSize) !! j) as [j' |] eqn:Hseq;
    [| done].
  apply lookup_seq in Hseq as [-> _]. simpl in Hj. congruence.
Qed.

(** C2 (amended): for every text and every chunkSize > 0 the chunker
    returns, and the contents of its chunks, concatenated in index order
    with nothing removed, give back the text.  The loop advances by
    chunkSize and cuts windows of chunkSize characters, so consecutive
    chunks share no character (third conjunct: chunk j is the window that
    starts at j * chunkSize) and the overlap to remove is 0. *)
Theorem chunkContent_reassembles text chunkSize :
  0 < chunkSize ->
  exists chunks,
    chunkContent text chunkSize = Some chunks
    /\ strip_overlaps 0 (map content chunks) = text
    /\ forall (j : nat) c, chunks !! j = Some c ->
         content c
         = take (Z.to_nat chunkSize) (drop (j * Z.to_nat chunkSize) text).
Proof.
  intros Hcs. eexists. split; [by apply chunkContent_closed_form |].
  split.
  - rewrite strip_overlaps_0, concat_nth_chunks by done.
    apply take_ge. unfold chunk_count.
    pose proof (ceil_div_spec (Z.of_nat (length text)) chunkSize Hcs).
    pose proof (ceil_div_nonneg (Z.of_nat (length text)) chunkSize
                  (ltac:(lia)) Hcs).
    nia.
  - intros j c Hj.
    rewrite (chunkContent_lookup text chunkSize _ j c Hcs
               (chunkContent_closed_form text chunkSize Hcs) Hj).
    by apply nth_chunk_content.
Qed.

(** C6: for every text and every chunkSize > 0 the chunker returns, every
    chunk content has at most chunkSize characters, and the indexes are
    0, 1, 2, ... in emission order. *)
Theorem chunkContent_bounded_contiguous text chunkSize :
  0 < chunkSize ->
  exists chunks,
    chunkContent text chunkSize = Some chunks
    /\ Forall (fun c => Z.of_nat (length (content c)) <= chunkSize) chunks
    /\ map index chunks = map Z.of_nat (seq 0 (length chunks)).
Proof.
  intros Hcs. eexists. split; [by apply chunkContent_closed_form |].
  split.
  - apply Forall_fmap, Forall_forall. intros j _. simpl.
    by apply nth_chunk_length.
  - rewrite length_map, length_seq, map_map.
    apply map_ext. intros j. by apply nth_chunk_index.
Qed.

(** C7: for the empty text and every chunkSize > 0 the chunker returns the
    empty sequence of chunks. *)
Theorem chunkContent_empty chunkSize :
  0 < chunkSize -> chunkContent (@nil char) chunkSize = Some [].
Proof. intros _. reflexivity. Qed.

(** The number of chunks is the ceiling of [length text / chunkSize]. *)
Lemma chunkContent_length text chunkSize chunks :
  0 < chunkSize ->
  chunkContent text chunkSize = Some chunks ->
  Z.of_nat (length chunks) = ceil_div (Z.of_nat (length text)) chunkSize.
Proof.
  intros Hcs Hrun.
  rewrite chunkContent_closed_form in Hrun by done.
  injection Hrun as <-.
  rewrite length_map, length_seq. unfold chunk_count.
  pose proof (ceil_div_nonneg (Z.of_nat (length text)) chunkSize
                (ltac:(lia)) Hcs).
  lia.
Qed.

(** Consecutive chunks are adjacent windows: the second starts at the
    character after the last one of the first. *)
Lemma consecutive_chunks_adjacent text chunkSize (j : nat) :
  0 < chunkSize ->
  (content (nth_chunk text chunkSize j)
   ++ content (nth_chunk text chunkSize (S j)))%list
  = take (2 * Z.to_nat chunkSize) (drop (j * Z.to_nat chunkSize) text).
Proof.
  intros Hcs. rewrite !nth_chunk_content by done.
  replace (S j * Z.to_nat chunkSize)%nat
    with (j * Z.to_nat chunkSize + Z.to_nat chunkSize)%nat by lia.
  rewrite <- drop_drop, take_take_drop. f_equal. lia.
Qed.

End ChunkerProperties.

Lemma chunkContent_reassembles_witness :
  0 < 12 /\
  exists chunks,
    chunkContent (text_of "Hi there. Bye now") 12 = Some chunks
    /\ strip_overlaps 0 (map content chunks) = text_of "Hi there. Bye now"
    /\ forall (j : nat) c, chunks !! j = Some c ->
         content c
         = take (Z.to_nat 12)
                (drop (j * Z.to_nat 12) (text_of "Hi there. Bye now")).
Proof.
  split; [lia |].
  apply (chunkContent_reassembles (text_of "Hi there. Bye now") 12). lia.
Defined.

Lemma chunkContent_bounded_contiguous_witness :
  0 < 12 /\
  exists chunks,
    chunkContent (text_of "Hi there. Bye now") 12 = Some chunks
    /\ Forall (fun c => Z.of_nat (length (content c)) <= 12) chunks
    /\ map index chunks = map Z.of_nat (seq 0 (length chunks)).
Proof.
  split; [lia |].
  apply (chunkContent_bounded_contiguous (text_of "Hi there. Bye now") 12).
  lia.
Defined.

Lemma chunkContent_empty_witness :
  0 < 1000 /\ chunkContent (@nil ascii) 1000 = Some [].
Proof.
  split; [lia | apply (chunkContent_empty 1000); lia].
Defined.


(** ** The helpers of the route *)

Section RouteProperties.
Context {char : Type} (w : World char).

(** Unfolds the effect layer in the goal. *)
Local Ltac run_io :=
  unfold fetch_json, try_catch, bind, emit, throw, ret; simpl.

(** [callMCPServer] never throws: a failing call becomes a result object
    with [success: false] that carries the caught message. *)
Lemma callMCPServer_failure (tool : string) (args : McpArgs) (text : string) :
  mcp_failure_message (mcp_reply w tool args) = Some text ->
  callMCPServer w tool args
  = (Normal (McpFailure ("MCP server call failed: " +:+ text)),
     [McpRequest (mcp_url w) tool args]).
Proof.
  unfold mcp_failure_message, mcp_reply, mcp_url, callMCPServer.
  intros Hfail. run_io.
  destruct (mcp_server w _ tool args) as [e | resp]; simpl in *.
  - by injection Hfail as <-.
  - destruct (negb (http_ok resp)); simpl in *.
    + by injection Hfail as <-.
    + destruct (http_json resp) as [e | [| data]]; simpl in *.
      * by injection Hfail as <-.
      * by injection Hfail as <-.
      * destruct (truthy_error_text (data_error data)) as [message |];
          simpl in *; [| done].
        by injection Hfail as <-.
Qed.

Lemma callMCPServer_success (tool : string) (args : McpArgs) :
  mcp_failure_message (mcp_reply w tool args) = None ->
  exists content metadata,
    callMCPServer w tool args
    = (Normal (McpSuccess content metadata),
       [McpRequest (mcp_url w) tool args]).
Proof.
  unfold mcp_failure_message, mcp_reply, mcp_url, callMCPServer.
  intros Hok. run_io.
  destruct (mcp_server w _ tool args) as [e | resp]; simpl in *; [done |].
  destruct (negb (http_ok resp)); simpl in *; [done |].
  destruct (http_json resp) as [e | [| data]]; simpl in *; [done | done |].
  destruct (truthy_error_text (data_error data)) as [message |];
    simpl in *; [done |].
  by eexists _, _.
Qed.

(** [processDocumentContent] always completes, without any request. *)
Lemma processDocumentContent_completes
    (fileName filePath fileType : string) (content : McpContent)
    (metadata : gmap string JSValue) :
  exists d,
    processDocumentContent w fileName filePath fileType content metadata
    = (Normal d, [])
    /\ doc_fileName d = fileName
    /\ doc_content d = base64_utf8 w content
    /\ chunkContent (doc_content d) default_chunkSize = Some (doc_chunks d).
Proof.
  unfold processDocumentContent.
  rewrite (chunkContent_closed_form (base64_utf8 w content)
             default_chunkSize) by done.
  eexists. split; [reflexivity |]. simpl.
  repeat split. by rewrite chunkContent_closed_form.
Qed.

(** [addDocumentToOnyx] answers [success: true] on both of its paths. *)
Lemma addDocumentToOnyx_always_succeeds (d : DocumentData char) :
  exists r,
    addDocumentToOnyx w d = (Normal r, [OnyxRequest (onyx_url w)
                                          (onyx_authorization w)
                                          (onyx_document d)])
    /\ onyx_success r = true
    /\ onyx_chunk_total r = length (doc_chunks d).
Proof.
  unfold addDocumentToOnyx, onyx_url, onyx_authorization, onyx_document.
  run_io.
  destruct (onyx_backend w _ _ _) as [e | resp]; simpl.
  - by eexists.
  - destruct (negb (http_ok resp)); simpl; [by eexists |].
    destruct (http_json resp) as [e | [| data]]; simpl; by eexists.
Qed.

(** The fallback of [addDocumentToOnyx]. *)
Lemma addDocumentToOnyx_fallback (d : DocumentData char) :
  fetch_failed (onyx_reply w d) = true ->
  addDocumentToOnyx w d
  = (Normal {| onyx_success := true;
               onyx_documentId := VString ("doc_" +:+ random36 w 0);
               onyx_fileId := VString ("file_" +:+ random36 w 1);
               onyx_chunk_total := length (doc_chunks d);
               onyx_warning :=
                 Some "Onyx backend not available - using fallback" |},
     [OnyxRequest (onyx_url w) (onyx_authorization w) (onyx_document d)]).
Proof.
  unfold fetch_failed, onyx_reply, addDocumentToOnyx, onyx_url,
    onyx_authorization, onyx_document.
  intros Hfail. run_io.
  destruct (onyx_backend w _ _ _) as [e | resp]; simpl in *; [done |].
  destruct (negb (http_ok resp)); simpl in *; [done |].
  by destruct (http_json resp) as [e | [| data]].
Qed.

(** ** The handlers *)

(** A failing [read_file] call makes [POST] answer 500 with the caught
    message, after the one request to the MCP server. *)
Lemma POST_mcp_failure (req : IngestRequest) (text : string) :
  mcp_failure_message (mcp_reply w "read_file" (read_file_args req))
  = Some text ->
  POST w (inr req)
  = (Normal {| status := 500;
               body := Failed false
                 ("Failed to ingest file: "
                  +:+ ("MCP server error: "
                       +:+ ("MCP server call failed: " +:+ text))) |},
     [McpRequest (mcp_url w) "read_file" (read_file_args req)]).
Proof.
  intros Hfail. unfold POST.
  unfold read_file_args in *.
  unfold try_catch at 1, bind at 1, ret at 1. simpl.
  unfold bind at 1.
  rewrite (callMCPServer_failure _ _ _ Hfail). by simpl.
Qed.

(** When the [read_file] call goes through, [POST] answers 200 with
    [success: true], whatever the Onyx backend does. *)
Lemma POST_mcp_success (req : IngestRequest) :
  mcp_failure_message (mcp_reply w "read_file" (read_file_args req)) = None ->
  exists message documentId fileId metadata (d : DocumentData char),
    POST w (inr req)
    = (Normal {| status := 200;
                 body := Ingested true message documentId fileId
                           (length (doc_chunks d)) metadata |},
       [McpRequest (mcp_url w) "read_file" (read_file_args req);
        OnyxRequest (onyx_url w) (onyx_authorization w)
                    (onyx_document d)])
    /\ doc_fileName d = fileName req
    /\ metadata = doc_metadata d.
Proof.
  intros Hok. unfold POST. unfold read_file_args in *.
  destruct (callMCPServer_success _ _ Hok) as (content & md & Hcall).
  destruct (processDocumentContent_completes (fileName req) (filePath req)
              (fileType req) content md) as (d & Hdoc & Hname & _).
  destruct (addDocumentToOnyx_always_succeeds d) as (r & Honyx & Hs & Hn).
  unfold bind at 1. simpl. unfold bind at 1. rewrite Hcall.
  unfold bind at 1. rewrite Hdoc.
  unfold bind at 1. rewrite Honyx, Hs. simpl.
  rewrite Hn. by eexists _, _, _, _, d.
Qed.

(** A failing [list_directory] call makes [GET] answer with the three
    placeholder folders. *)
Lemma GET_mcp_failure :
  mcp_failed (mcp_reply w "list_directory" (list_directory_args w)) = true ->
  GET w
  = (Normal {| status := 200;
               body := Listing true (Files (mockLocalFiles w))
                 (Some "Using fallback data - MCP server not available") |},
     [McpRequest (mcp_url w) "list_directory" (list_directory_args w)]).
Proof.
  unfold mcp_failed, list_directory_args. intros Hfail.
  destruct (mcp_failure_message _) as [text |] eqn:Htext; [| done].
  unfold GET. unfold try_catch at 1, bind at 1.
  rewrite (callMCPServer_failure _ _ _ Htext). by simpl.
Qed.

End RouteProperties.

(** The result of [processDocumentContent], written out. *)
Lemma processDocumentContent_result {char : Type} (w : World char)
    (fileName filePath fileType : string) (content : McpContent)
    (metadata : gmap string JSValue) :
  exists d,
    processDocumentContent w fileName filePath fileType content metadata
    = (Normal d, [])
    /\ doc_fileName d = fileName
    /\ doc_content d = base64_utf8 w content
    /\ chunkContent (doc_content d) default_chunkSize = Some (doc_chunks d)
    /\ doc_metadata d
       = <["mcpProcessed" := VBoolean true]>
         (<["source" := VString "local_file"]>
         (<["originalSize" := VNumber (Z.of_nat (length (doc_content d)))]>
         (<["chunkCount" := VNumber (Z.of_nat (length (doc_chunks d)))]>
         (<["processedAt" := VString (toISOString w 0)]>
         (<["fileType" := VString fileType]>
         (<["filePath" := VString filePath]>
         (<["fileName" := VString fileName]> metadata))))))).
Proof.
  unfold processDocumentContent.
  destruct (chunkContent (base64_utf8 w content) default_chunkSize)
    as [chunks |] eqn:Hrun.
  - eexists. split; [reflexivity |]. by simpl.
  - by rewrite chunkContent_closed_form in Hrun.
Qed.



(** ** C1: what a downstream failure looks like to the caller *)

(** C1 (as stated, fails): with the MCP server unreachable the listing
    answers [success: true] with three made-up folders, and with the Onyx
    backend unreachable the ingestion answers [success: true] with
    generated document and file ids. *)
Lemma fallback_reports_success :
  mcp_failed (mcp_reply offline_world "list_directory"
                (list_directory_args offline_world)) = true
  /\ GET offline_world
     = (Normal {| status := 200;
                  body := Listing true (Files (mockLocalFiles offline_world))
                    (Some "Using fallback data - MCP server not available") |},
        [McpRequest "http://localhost:8001/mcp" "list_directory"
           (ListDirectoryArgs "/Users")])
  /\ onyx_backend onyx_down_world
     = (fun _ _ _ => Rejected (ErrorObject "fetch failed"))
  /\ exists metadata log,
       POST onyx_down_world (inr notes_request)
       = (Normal {| status := 200;
                    body := Ingested true
                      "Successfully ingested notes.txt into Onyx"
                      (VString "doc_k3j9x0q2a") (VString "file_p0o9i8u7y")
                      1 metadata |},
          log).
Proof.
  split; [reflexivity |]. split; [reflexivity |]. split; [reflexivity |].
  eexists _, _. vm_compute. reflexivity.
Qed.

(** C1 (amended): a failing MCP call of an ingestion request is reported
    to the caller (success false, status 500, nothing sent to Onyx); a
    failing MCP call of a listing request is answered with success true,
    the three placeholder folders and a warning; a failing Onyx call is
    answered by [addDocumentToOnyx] with success true, generated ids and a
    warning. *)
Theorem downstream_failure_outcomes {char : Type} (w : World char)
    (req : IngestRequest) (d : DocumentData char) :
  (mcp_failed (mcp_reply w "read_file" (read_file_args req)) = true ->
   exists error,
     POST w (inr req)
     = (Normal {| status := 500; body := Failed false error |},
        [McpRequest (mcp_url w) "read_file" (read_file_args req)]))
  /\ (mcp_failed (mcp_reply w "list_directory" (list_directory_args w))
      = true ->
      GET w
      = (Normal {| status := 200;
                   body := Listing true (Files (mockLocalFiles w))
                     (Some "Using fallback data - MCP server not available") |},
         [McpRequest (mcp_url w) "list_directory" (list_directory_args w)]))
  /\ (fetch_failed (onyx_reply w d) = true ->
      addDocumentToOnyx w d
      = (Normal {| onyx_success := true;
                   onyx_documentId := VString ("doc_" +:+ random36 w 0);
                   onyx_fileId := VString ("file_" +:+ random36 w 1);
                   onyx_chunk_total := length (doc_chunks d);
                   onyx_warning :=
                     Some "Onyx backend not available - using fallback" |},
         [OnyxRequest (onyx_url w) (onyx_authorization w)
                      (onyx_document d)])).
Proof.
  split; [| split].
  - unfold mcp_failed. intros Hfail.
    destruct (mcp_failure_message _) as [text |] eqn:Htext; [| done].
    eexists. by apply POST_mcp_failure.
  - apply GET_mcp_failure.
  - apply addDocumentToOnyx_fallback.
Qed.

Lemma downstream_failure_outcomes_witness :
  (mcp_failed (mcp_reply offline_world "read_file"
                 (read_file_args notes_request)) = true
   /\ mcp_failed (mcp_reply offline_world "list_directory"
                    (list_directory_args offline_world)) = true
   /\ fetch_failed (onyx_reply offline_world sample_document) = true)
  /\ (exists error,
        POST offline_world (inr notes_request)
        = (Normal {| status := 500; body := Failed false error |},
           [McpRequest (mcp_url offline_world) "read_file"
              (read_file_args notes_request)]))
  /\ GET offline_world
     = (Normal {| status := 200;
                  body := Listing true (Files (mockLocalFiles offline_world))
                    (Some "Using fallback data - MCP server not available") |},
        [McpRequest (mcp_url offline_world) "list_directory"
           (list_directory_args offline_world)])
  /\ addDocumentToOnyx offline_world sample_document
     = (Normal {| onyx_success := true;
                  onyx_documentId :=
                    VString ("doc_" +:+ random36 offline_world 0);
                  onyx_fileId :=
                    VString ("file_" +:+ random36 offline_world 1);
                  onyx_chunk_total := length (doc_chunks sample_document);
                  onyx_warning :=
                    Some "Onyx backend not available - using fallback" |},
        [OnyxRequest (onyx_url offline_world)
           (onyx_authorization offline_world) (onyx_document sample_document)]).
Proof.
  destruct (downstream_failure_outcomes offline_world notes_request
              sample_document)
    as (Hpost & Hget & Honyx).
  split; [repeat split |].
  split; [apply Hpost; reflexivity |].
  split; [apply Hget; reflexivity | apply Honyx; reflexivity].
Defined.

(** ** C3: no extension check in the route *)



(** ** C8: the error payload *)

(** C8 (as stated, fails): the operating-system error text that the MCP
    server relays is part of the error payload of the route. *)
Lemma POST_error_includes_raw_text :
  exists error,
    POST denying_world (inr notes_request)
    = (Normal {| status := 500; body := Failed false error |},
       [McpRequest "http://localhost:8001/mcp" "read_file"
          (ReadFileArgs "/Users/notes.txt" "notes.txt")])
    /\ error
       = "Failed to ingest file: MCP server error: MCP server call failed: "
         +:+ ("MCP server error: " +:+ raw_system_error)
    /\ includes raw_system_error error = true.
Proof.
  eexists. split; [vm_compute; reflexivity |]. split; reflexivity.
Qed.

(** C8 (amended): when the MCP call of an ingest request fails, the error
    payload is "Failed to ingest file: MCP server error: MCP server call
    failed: " followed by the message of the caught error, which is the
    text of the rejected request, the HTTP status, the parse error, the
    error for a null body or the JSON-RPC error message of the server,
    unchanged; when the request body
    itself does not parse, the payload is "Failed to ingest file: "
    followed by the message of that error.  The status is 500 in both
    cases. *)
Theorem POST_error_payload {char : Type} (w : World char) :
  (forall (req : IngestRequest) (text : string),
     mcp_failure_message (mcp_reply w "read_file" (read_file_args req))
     = Some text ->
     POST w (inr req)
     = (Normal {| status := 500;
                  body := Failed false
                    ("Failed to ingest file: MCP server error: "
                     +:+ "MCP server call failed: "
                     +:+ text) |},
        [McpRequest (mcp_url w) "read_file" (read_file_args req)]))
  /\ (forall e : Thrown,
        POST w (inl e)
        = (Normal {| status := 500;
                     body := Failed false
                       ("Failed to ingest file: " +:+ message_or_unknown e) |},
           [])).
Proof.
  split.
  - intros req text Htext. by rewrite (POST_mcp_failure w req text Htext).
  - intros e. reflexivity.
Qed.

Lemma POST_error_payload_witness :
  mcp_failure_message (mcp_reply denying_world "read_file"
                         (read_file_args notes_request))
  = Some ("MCP server error: " +:+ raw_system_error)
  /\ POST denying_world (inr notes_request)
     = (Normal {| status := 500;
                  body := Failed false
                    ("Failed to ingest file: MCP server error: "
                     +:+ "MCP server call failed: "
                     +:+ ("MCP server error: " +:+ raw_system_error)) |},
        [McpRequest (mcp_url denying_world) "read_file"
           (read_file_args notes_request)]).
Proof.
  split; [reflexivity |].
  apply (proj1 (POST_error_payload denying_world) notes_request). reflexivity.
Defined.


(** ** C2, C4 and C5: the chunker is a plain fixed-window splitter *)

(** C2 (as stated, fails): at chunk size 1000 a text of 1000 times "a"
    followed by 200 times "b" is cut into the 1000 "a" and the 200 "b".
    Removing the configured overlap of 200 characters from the second
    chunk leaves 1000 of the 1200 characters, and removing any overlap of
    at least one character does not give back the text. *)
Lemma strip_overlaps_loses_text :
  exists chunks,
    chunkContent (replicate 1000 "a"%char ++ replicate 200 "b"%char)%list
                 default_chunkSize
    = Some chunks
    /\ Z.of_nat documented_overlap < default_chunkSize
    /\ length (strip_overlaps documented_overlap (map content chunks))
       = 1000%nat
    /\ strip_overlaps documented_overlap (map content chunks)
       <> (replicate 1000 "a"%char ++ replicate 200 "b"%char)%list
    /\ forall k : nat,
         (1 <= k)%nat ->
         strip_overlaps k (map content chunks)
         <> (replicate 1000 "a"%char ++ replicate 200 "b"%char)%list.
Proof.
  eexists. split; [vm_compute; reflexivity |].
  split; [done |].
  assert (forall k : nat, (1 <= k)%nat ->
            strip_overlaps k [replicate 1000 "a"%char; replicate 200 "b"%char]
            <> (replicate 1000 "a"%char ++ replicate 200 "b"%char)%list)
    as Hall.
  { intros k Hk Heq. apply (f_equal length) in Heq.
    cbn [strip_overlaps map concat] in Heq.
    rewrite !length_app, length_drop, !length_replicate in Heq.
    simpl in Heq. lia. }
  split; [vm_compute; reflexivity |].
  split; [apply (Hall documented_overlap); unfold documented_overlap; lia |].
  exact Hall.
Qed.

(** The same on a text that can be traced by hand: "abcd" in windows of 2
    is "ab", "cd"; without the first character of "cd" what is left is
    "abd". *)
Lemma strip_overlaps_abcd :
  chunkContent (text_of "abcd") 2 = Some [ab_chunk; cd_chunk]
  /\ strip_overlaps 1 (map content [ab_chunk; cd_chunk]) = text_of "abd".
Proof. split; reflexivity. Qed.

(** C4 (as stated, fails): at chunk size 1000 a text of 1000 times "a"
    followed by 200 times "b" is cut into the 1000 "a" and the 200 "b".
    For the overlap of 200 that the guide documents, and for every other
    overlap of at least one character, the trailing characters of the
    first chunk are not the leading characters of the second. *)
Lemma chunkContent_shares_no_overlap :
  exists c0 c1,
    chunkContent (replicate 1000 "a"%char ++ replicate 200 "b"%char)%list
                 default_chunkSize
    = Some [c0; c1]
    /\ content c0 = replicate 1000 "a"%char
    /\ content c1 = replicate 200 "b"%char
    /\ ~ shares_overlap documented_overlap c0 c1
    /\ forall k : nat, (1 <= k)%nat -> ~ shares_overlap k c0 c1.
Proof.
  eexists _, _. split; [vm_compute; reflexivity |].
  split; [vm_compute; reflexivity |]. split; [vm_compute; reflexivity |].
  assert (forall k : nat, (1 <= k)%nat ->
            trailing k (replicate 1000 "a"%char)
            <> leading k (replicate 200 "b"%char)) as Hall.
  { intros k Hk. unfold trailing, leading.
    rewrite drop_replicate, length_replicate.
    destruct k as [| k]; [lia |].
    destruct (1000 - (1000 - S k))%nat as [| n] eqn:Hn; [lia |].
    simpl. discriminate. }
  split.
  - apply (Hall documented_overlap). unfold documented_overlap. lia.
  - exact Hall.
Qed.

(** The same on a text that can be traced by hand: "abcd" in windows of 2
    is "ab", "cd", and "b" is not "c". *)
Lemma chunkContent_abcd :
  chunkContent (text_of "abcd") 2 = Some [ab_chunk; cd_chunk]
  /\ ~ shares_overlap 1 ab_chunk cd_chunk.
Proof.
  split; [reflexivity |]. unfold shares_overlap. vm_compute. discriminate.
Qed.

(** C4 (amended): for every text that produces at least two chunks,
    consecutive chunks share no character of the text.  Chunk i holds
    exactly chunkSize characters, those from position i * chunkSize on;
    chunk i + 1 starts at the next position; the two contents, one after
    the other, are the 2 * chunkSize characters of the text from position
    i * chunkSize on (fewer at the end of the text). *)
Theorem consecutive_chunks_disjoint {char : Type} (text : list char)
    (chunkSize : Z) (chunks : list (Chunk char)) (i : nat)
    (c1 c2 : Chunk char) :
  0 < chunkSize ->
  chunkContent text chunkSize = Some chunks ->
  chunks !! i = Some c1 ->
  chunks !! S i = Some c2 ->
  length (content c1) = Z.to_nat chunkSize
  /\ content c1 = take (Z.to_nat chunkSize) (drop (i * Z.to_nat chunkSize) text)
  /\ content c2
     = take (Z.to_nat chunkSize)
            (drop (i * Z.to_nat chunkSize + Z.to_nat chunkSize) text)
  /\ (content c1 ++ content c2)%list
     = take (2 * Z.to_nat chunkSize) (drop (i * Z.to_nat chunkSize) text).
Proof.
  intros Hcs Hrun H1 H2.
  pose proof (chunkContent_lookup _ _ _ _ _ Hcs Hrun H1) as ->.
  pose proof (chunkContent_lookup _ _ _ _ _ Hcs Hrun H2) as ->.
  assert (S i < length chunks)%nat as Hlt by (by eapply lookup_lt_Some).
  pose proof (chunkContent_length _ _ _ Hcs Hrun) as Hcount.
  pose proof (ceil_div_spec (Z.of_nat (length text)) chunkSize Hcs) as Hceil.
  split.
  - rewrite nth_chunk_content, length_take, length_drop by done. nia.
  - split; [by apply nth_chunk_content |].
    split; [| by apply consecutive_chunks_adjacent].
    rewrite nth_chunk_content by done. do 2 f_equal. lia.
Qed.

Lemma consecutive_chunks_disjoint_witness :
  (0 < 2
   /\ chunkContent (text_of "abcd") 2 = Some [ab_chunk; cd_chunk]
   /\ [ab_chunk; cd_chunk] !! 0%nat = Some ab_chunk
   /\ [ab_chunk; cd_chunk] !! 1%nat = Some cd_chunk)
  /\ length (content ab_chunk) = Z.to_nat 2
  /\ content ab_chunk
     = take (Z.to_nat 2) (drop (0 * Z.to_nat 2) (text_of "abcd"))
  /\ content cd_chunk
     = take (Z.to_nat 2) (drop (0 * Z.to_nat 2 + Z.to_nat 2) (text_of "abcd"))
  /\ (content ab_chunk ++ content cd_chunk)%list
     = take (2 * Z.to_nat 2) (drop (0 * Z.to_nat 2) (text_of "abcd")).
Proof.
  split; [repeat split; lia |].
  apply (consecutive_chunks_disjoint (text_of "abcd") 2
           [ab_chunk; cd_chunk] 0 ab_chunk cd_chunk);
    [lia | reflexivity | reflexivity | reflexivity].
Defined.

(** C5 (as stated, fails): at the default chunk size a text of 996 times
    "a" followed by ". Bye now" has a sentence boundary at position 998,
    two characters before position 1000; the source cuts at 1000, inside
    the word "Bye". *)
Lemma chunkContent_cuts_inside_word :
  chunkContent (replicate 996 "a"%char ++ text_of ". Bye now")%list
               default_chunkSize
  = Some [mkChunk "chunk_0" (replicate 996 "a"%char ++ text_of ". By")%list 0;
          mkChunk "chunk_1000" (text_of "e now") 1].
Proof. vm_compute. reflexivity. Qed.

(** The same with a window of 12 characters. *)
Lemma chunkContent_hi_there :
  chunkContent (text_of "Hi there. Bye now") 12 = Some [hi_chunk; now_chunk].
Proof. reflexivity. Qed.

(** Where the source cuts depends on the length of the text only: two
    texts of the same length are cut at the same positions. *)
Lemma chunkContent_cuts_by_length {char : Type} (t1 t2 : list char)
    (chunkSize : Z) (cs1 cs2 : list (Chunk char)) :
  0 < chunkSize -> length t1 = length t2 ->
  chunkContent t1 chunkSize = Some cs1 ->
  chunkContent t2 chunkSize = Some cs2 ->
  map (fun c => length (content c)) cs1 = map (fun c => length (content c)) cs2.
Proof.
  intros Hcs Hlen H1 H2.
  rewrite chunkContent_closed_form in H1, H2 by done.
  injection H1 as <-. injection H2 as <-.
  unfold chunk_count. rewrite Hlen, !map_map.
  apply map_ext. intros j.
  rewrite !nth_chunk_content, !length_take, !length_drop by done.
  by rewrite Hlen.
Qed.

(** C5 (amended): the chunker looks at no character of the text when it
    chooses where to cut.  It always makes the exact cut at every multiple
    of chunkSize: chunk i is the window of the text that starts at
    position i * chunkSize, every chunk but the last has exactly chunkSize
    characters, and the last one has between 1 and chunkSize. *)
Theorem chunkContent_hard_cuts {char : Type} (text : list char)
    (chunkSize : Z) (chunks : list (Chunk char)) (i : nat) (c : Chunk char) :
  0 < chunkSize ->
  chunkContent text chunkSize = Some chunks ->
  chunks !! i = Some c ->
  content c = take (Z.to_nat chunkSize) (drop (i * Z.to_nat chunkSize) text)
  /\ (1 <= length (content c) <= Z.to_nat chunkSize)%nat
  /\ length (content c)
     = (if decide (S i < length chunks)%nat
        then Z.to_nat chunkSize
        else length text - i * Z.to_nat chunkSize)%nat.
Proof.
  intros Hcs Hrun Hi.
  pose proof (chunkContent_lookup _ _ _ _ _ Hcs Hrun Hi) as ->.
  assert (i < length chunks)%nat as Hlt by (by eapply lookup_lt_Some).
  pose proof (chunkContent_length _ _ _ Hcs Hrun) as Hcount.
  pose proof (ceil_div_spec (Z.of_nat (length text)) chunkSize Hcs) as Hceil.
  split; [by apply nth_chunk_content |].
  rewrite nth_chunk_content, length_take, length_drop by done.
  split; [nia |].
  case_decide; nia.
Qed.

Lemma chunkContent_hard_cuts_witness :
  (0 < 12
   /\ chunkContent (text_of "Hi there. Bye now") 12 = Some [hi_chunk; now_chunk]
   /\ [hi_chunk; now_chunk] !! 0%nat = Some hi_chunk)
  /\ content hi_chunk
     = take (Z.to_nat 12)
            (drop (0 * Z.to_nat 12) (text_of "Hi there. Bye now"))
  /\ (1 <= length (content hi_chunk) <= Z.to_nat 12)%nat
  /\ length (content hi_chunk)
     = (if decide (1 < length [hi_chunk; now_chunk])%nat
        then Z.to_nat 12
        else length (text_of "Hi there. Bye now") - 0 * Z.to_nat 12)%nat.
Proof.
  split; [repeat split; lia |].
  apply (chunkContent_hard_cuts (text_of "Hi there. Bye now") 12
           [hi_chunk; now_chunk] 0 hi_chunk); [lia | reflexivity | reflexivity].
Defined.

(** ** C10: metadata of a processed document *)

(** C10: [processDocumentContent] always completes; in its result the
    metadata entry chunkCount is the number of chunks of the returned
    chunk sequence, that number is the ceiling of the length of the
    decoded text over the chunk size 1000, and the entry originalSize is
    the length of the decoded text. *)
Theorem processDocumentContent_metadata_consistent {char : Type}
    (w : World char) (fileName filePath fileType : string)
    (content : McpContent) (metadata : gmap string JSValue) :
  exists d,
    processDocumentContent w fileName filePath fileType content metadata
    = (Normal d, [])
    /\ doc_content d = base64_utf8 w content
    /\ chunkContent (doc_content d) default_chunkSize = Some (doc_chunks d)
    /\ doc_metadata d !! "chunkCount"
       = Some (VNumber (Z.of_nat (length (doc_chunks d))))
    /\ Z.of_nat (length (doc_chunks d))
       = ceil_div (Z.of_nat (length (doc_content d))) default_chunkSize
    /\ doc_metadata d !! "originalSize"
       = Some (VNumber (Z.of_nat (length (doc_content d)))).
Proof.
  unfold processDocumentContent.
  destruct (chunkContent (base64_utf8 w content) default_chunkSize)
    as [chunks |] eqn:Hrun.
  - eexists. split; [reflexivity |]. simpl.
    split; [done |]. split; [done |].
    split; [by simplify_map_eq |].
    split; [by apply chunkContent_length |].
    by simplify_map_eq.
  - by rewrite chunkContent_closed_form in Hrun.
Qed.

(** ** C9: the MIME lookup *)

Lemma split_not_empty (sep : ascii) (s : string) : split sep s <> [].
Proof.
  induction s as [| c rest IH]; simpl; [done |].
  destruct (Ascii.eqb c sep); [done |].
  by destruct (split sep rest).
Qed.

(** Every file name has a last dot-separated segment. *)
Lemma file_extension_is_Some (fileName : string) :
  is_Some (file_extension fileName).
Proof.
  unfold file_extension, pop.
  destruct (last (split "." fileName)) as [seg |] eqn:Hlast; [by eexists |].
  apply last_None in Hlast. by apply split_not_empty in Hlast.
Qed.

(** A segment that is neither a key of the table nor a property inherited
    from [Object.prototype] gives the default type. *)
Lemma getMimeType_default (fileName : string) :
  let key := string_or (file_extension fileName) EmptyString in
  key ∉ recognized_extensions ->
  Object_prototype !! key = None ->
  getMimeType fileName = VString "application/octet-stream".
Proof.
  intros key Hkey Hproto. unfold getMimeType, get_property. fold key.
  assert (mimeTypes !! key = None) as ->.
  { apply not_elem_of_list_to_map_1. exact Hkey. }
  by rewrite Hproto.
Qed.

(** A key of the table gives the entry of the table. *)
Lemma getMimeType_recognized (fileName mime : string) :
  mimeTypes !! string_or (file_extension fileName) EmptyString = Some mime ->
  getMimeType fileName = VString mime.
Proof.
  intros Hkey. unfold getMimeType, get_property. rewrite Hkey.
  apply elem_of_list_to_map_2 in Hkey.
  repeat (apply elem_of_cons in Hkey as [[= _ ->] | Hkey]; [done |]).
  by apply elem_of_nil in Hkey.
Qed.

(** C9 (fails on the source): for the file name "notes.constructor" the
    lookup finds the inherited property [constructor] of the table object
    and returns the function [Object], which is not a string, although
    "constructor" is none of the seven extensions; for the file name
    "pdf", which has no extension, it returns "application/pdf". *)
Theorem getMimeType_inherited_property :
  file_extension "notes.constructor" = Some "constructor"
  /\ ("constructor" ∉ recognized_extensions)
  /\ getMimeType "notes.constructor" = VFunction "Object"
  /\ is_string (getMimeType "notes.constructor") = false
  /\ getMimeType "pdf" = VString "application/pdf".
Proof.
  split; [reflexivity |]. split; [| by vm_compute].
  unfold recognized_extensions. rewrite !not_elem_of_cons.
  repeat split; try discriminate. apply not_elem_of_nil.
Qed.

(** * Further properties of the route's code *)

(** ** The chunker: termination, ids, short texts, concatenation *)

(** X1: The loop of [chunkContent] runs forever, whatever the fuel, exactly
    when chunkSize is zero or negative and the text is not empty; in every
    other case [chunkContent] returns. *)
Theorem chunkContent_runs_forever_iff {char : Type} (text : list char)
    (chunkSize : Z) :
  (forall fuel : nat, chunk_loop fuel text chunkSize 0 [] = None)
  <-> chunkSize <= 0 /\ text <> [].
Proof.
  split.
  - intros Hloop. apply chunkContent_None_iff. apply Hloop.
  - intros [Hle Htext] fuel. apply chunk_loop_diverges; [done |].
    destruct text; [done | simpl; lia].
Qed.

Lemma number_to_string_inj (a b : Z) :
  number_to_string a = number_to_string b -> a = b.
Proof.
  unfold number_to_string. intros Heq.
  assert (Some (Z.to_int a) = Some (Z.to_int b)) as Hint
    by (by rewrite <- !NilEmpty.isi, Heq).
  injection Hint as Hint.
  by rewrite <- (DecimalZ.of_to a), <- (DecimalZ.of_to b), Hint.
Qed.

(** X2: The id of every chunk is "chunk_" followed by the decimal offset of
    the chunk in the text, index * chunkSize, and no two chunks of one
    result have the same id. *)
Theorem chunk_ids_distinct {char : Type} (text : list char) (chunkSize : Z)
    (chunks : list (Chunk char)) :
  0 < chunkSize ->
  chunkContent text chunkSize = Some chunks ->
  NoDup (map id chunks)
  /\ Forall (fun c => id c = "chunk_" +:+ number_to_string (index c * chunkSize))
            chunks.
Proof.
  intros Hcs Hrun.
  rewrite chunkContent_closed_form in Hrun by done. injection Hrun as <-.
  split.
  - rewrite map_map. apply NoDup_fmap_2; [| apply NoDup_seq].
    intros j1 j2 Hid. unfold nth_chunk, chunk_at in Hid. simpl in Hid.
    injection Hid as Hid. apply number_to_string_inj in Hid. nia.
  - apply Forall_fmap, Forall_forall. intros j _. simpl.
    replace (Z.of_nat j * chunkSize / chunkSize) with (Z.of_nat j)
      by (symmetry; apply Z.div_mul; lia).
    done.
Qed.

Lemma chunk_ids_distinct_witness :
  (0 < 2 /\ chunkContent (text_of "abcd") 2 = Some [ab_chunk; cd_chunk])
  /\ NoDup (map id [ab_chunk; cd_chunk])
  /\ Forall (fun c => id c = "chunk_" +:+ number_to_string (index c * 2))
            [ab_chunk; cd_chunk].
Proof.
  split; [split; [lia | reflexivity] |].
  apply (chunk_ids_distinct (text_of "abcd") 2 [ab_chunk; cd_chunk]);
    [lia | reflexivity].
Defined.

(** X3: A non-empty text of at most chunkSize characters gives exactly one
    chunk: id "chunk_0", index 0, and the whole text as content. *)
Theorem chunkContent_single_chunk {char : Type} (text : list char)
    (chunkSize : Z) :
  text <> [] ->
  Z.of_nat (length text) <= chunkSize ->
  chunkContent text chunkSize
  = Some [ {| id := "chunk_0"; content := text; index := 0 |} ].
Proof.
  intros Htext Hlen.
  assert (0 < length text)%nat as Hpos by (destruct text; [done | simpl; lia]).
  assert (0 < chunkSize) as Hcs by lia.
  rewrite chunkContent_closed_form by done.
  assert (chunk_count text chunkSize = 1%nat) as ->.
  { unfold chunk_count.
    pose proof (ceil_div_spec (Z.of_nat (length text)) chunkSize Hcs).
    nia. }
  simpl. do 2 f_equal. unfold nth_chunk, chunk_at. simpl.
  f_equal.
  rewrite slice_nonneg by lia. rewrite drop_0. apply take_ge. lia.
Qed.

Lemma chunkContent_single_chunk_witness :
  (text_of "Hi" <> [] /\ Z.of_nat (length (text_of "Hi")) <= 1000)
  /\ chunkContent (text_of "Hi") 1000
     = Some [ {| id := "chunk_0"; content := text_of "Hi"; index := 0 |} ].
Proof.
  split; [split; [discriminate | simpl; lia] |].
  apply (chunkContent_single_chunk (text_of "Hi") 1000);
    [discriminate | simpl; lia].
Defined.

Lemma chunk_count_app {char : Type} (t1 t2 : list char) (chunkSize : Z)
    (m : nat) :
  0 < chunkSize ->
  length t1 = (m * Z.to_nat chunkSize)%nat ->
  chunk_count (t1 ++ t2) chunkSize = (m + chunk_count t2 chunkSize)%nat.
Proof.
  intros Hcs Hlen. unfold chunk_count, ceil_div.
  rewrite length_app, Hlen.
  replace (Z.of_nat (m * Z.to_nat chunkSize + length t2) + chunkSize - 1)
    with (Z.of_nat m * chunkSize + (Z.of_nat (length t2) + chunkSize - 1))
    by lia.
  rewrite Z.div_add_l by lia.
  assert (0 <= (Z.of_nat (length t2) + chunkSize - 1) / chunkSize)
    by (apply Z.div_pos; lia).
  lia.
Qed.

(** X4: Chunking a concatenation: when the length of the first text is a
    multiple of chunkSize, the chunk contents of [t1 ++ t2] are the chunk
    contents of [t1] followed by those of [t2]. *)
Theorem chunkContent_app {char : Type} (t1 t2 : list char) (chunkSize : Z)
    (m : nat) :
  0 < chunkSize ->
  length t1 = (m * Z.to_nat chunkSize)%nat ->
  exists cs1 cs2 cs,
    chunkContent t1 chunkSize = Some cs1
    /\ chunkContent t2 chunkSize = Some cs2
    /\ chunkContent (t1 ++ t2) chunkSize = Some cs
    /\ map content cs = (map content cs1 ++ map content cs2)%list.
Proof.
  intros Hcs Hlen.
  eexists _, _, _.
  split; [by apply chunkContent_closed_form |].
  split; [by apply chunkContent_closed_form |].
  split; [by apply chunkContent_closed_form |].
  rewrite (chunk_count_app t1 t2 chunkSize m Hcs Hlen).
  replace (chunk_count t1 chunkSize) with m.
  2:{ unfold chunk_count.
      pose proof (ceil_div_spec (Z.of_nat (length t1)) chunkSize Hcs).
      nia. }
  rewrite seq_app, !map_app, !map_map. f_equal.
  - apply map_ext_in. intros j Hj. apply in_seq in Hj.
    rewrite !nth_chunk_content by done.
    rewrite drop_app_le by nia. apply take_app_le.
    rewrite length_drop. nia.
  - replace (seq (0 + m) (chunk_count t2 chunkSize))
      with (Nat.add m <$> seq 0 (chunk_count t2 chunkSize))
      by (rewrite fmap_add_seq; f_equal; lia).
    rewrite <- list_fmap_compose.
    apply map_ext. intros j. unfold compose.
    rewrite !nth_chunk_content by done.
    rewrite drop_app_ge by nia. do 2 f_equal. nia.
Qed.

Lemma chunkContent_app_witness :
  (0 < 2 /\ length (text_of "abcd") = (2 * Z.to_nat 2)%nat)
  /\ exists cs1 cs2 cs,
       chunkContent (text_of "abcd") 2 = Some cs1
       /\ chunkContent (text_of "efg") 2 = Some cs2
       /\ chunkContent (text_of "abcd" ++ text_of "efg") 2 = Some cs
       /\ map content cs = (map content cs1 ++ map content cs2)%list.
Proof.
  split; [split; [lia | reflexivity] |].
  apply (chunkContent_app (text_of "abcd") (text_of "efg") 2 2);
    [lia | reflexivity].
Defined.

(** ** The MIME lookup: letter case, dots, and the complete table *)

Lemma lower_code_unit_idem (c : ascii) :
  lower_code_unit (lower_code_unit c) = lower_code_unit c.
Proof. destruct c as [[] [] [] [] [] [] [] []]; vm_compute; reflexivity. Qed.

Lemma lower_code_unit_dot (c : ascii) :
  Ascii.eqb (lower_code_unit c) "." = Ascii.eqb c ".".
Proof. destruct c as [[] [] [] [] [] [] [] []]; vm_compute; reflexivity. Qed.

Lemma toLowerCase_idem (s : string) :
  toLowerCase (toLowerCase s) = toLowerCase s.
Proof.
  induction s as [| c rest IH]; simpl; [done |].
  by rewrite lower_code_unit_idem, IH.
Qed.

(** Lower-casing commutes with splitting at dots. *)
Lemma split_toLowerCase (s : string) :
  split "." (toLowerCase s) = toLowerCase <$> split "." s.
Proof.
  induction s as [| c rest IH]; [done |].
  cbn [toLowerCase split]. rewrite lower_code_unit_dot, IH.
  destruct (Ascii.eqb c "."); [done |].
  by destruct (split "." rest).
Qed.

(** Splitting around a separator: the segments of the part before it,
    then the segments of the part after it. *)
Lemma split_app_sep (sep : ascii) (a b : string) :
  split sep (a +:+ String sep b) = (split sep a ++ split sep b)%list.
Proof.
  induction a as [| c a IH]; simpl.
  - by rewrite Ascii.eqb_refl.
  - rewrite IH. destruct (Ascii.eqb c sep); [done |].
    pose proof (split_not_empty sep a) as Hne.
    by destruct (split sep a).
Qed.

Lemma split_no_sep (sep : ascii) (s : string) :
  has_code_unit sep s = false -> split sep s = [s].
Proof.
  induction s as [| c rest IH]; cbn [has_code_unit split]; [done |].
  intros [Hc Hrest]%orb_false_iff. by rewrite Hc, (IH Hrest).
Qed.

Lemma extension_key_lower (fileName : string) :
  toLowerCase (extension_key fileName) = extension_key fileName.
Proof.
  unfold extension_key, file_extension, string_or.
  destruct (pop (split "." fileName)) as [seg |]; simpl; [| done].
  destruct (String.eqb (toLowerCase seg) EmptyString); [done |].
  apply toLowerCase_idem.
Qed.

(** X5: The lookup does not depend on the letter case of the file name:
    lower-casing the whole name first gives the same result. *)
Theorem getMimeType_case_insensitive (fileName : string) :
  getMimeType (toLowerCase fileName) = getMimeType fileName.
Proof.
  unfold getMimeType, file_extension, pop.
  rewrite split_toLowerCase, fmap_last.
  destruct (last (split "." fileName)) as [seg |]; simpl; [| done].
  by rewrite toLowerCase_idem.
Qed.

(** The last segment of [base.rest] is the last segment of [rest]. *)
Lemma file_extension_after_dot (base rest : string) :
  file_extension (base +:+ "." +:+ rest) = file_extension rest.
Proof.
  unfold file_extension, pop.
  change ("." +:+ rest) with (String "." rest).
  rewrite split_app_sep, last_app.
  destruct (last (split "." rest)) as [seg |] eqn:Hlast; [done |].
  apply last_None in Hlast. by apply split_not_empty in Hlast.
Qed.

(** X6: Only what follows a dot matters: the result for [base.rest] is the
    result for [rest], whatever [base] is. *)
Theorem getMimeType_after_dot (base rest : string) :
  getMimeType (base +:+ "." +:+ rest) = getMimeType rest.
Proof.
  unfold getMimeType. by rewrite file_extension_after_dot.
Qed.

(** X7: A file name that ends in a dot and one of the seven extensions, in
    any letter case, gets the type of the table; so does the bare
    extension used as a file name. *)
Theorem getMimeType_known_extension (base ext mime : string) :
  has_code_unit "." ext = false ->
  mimeTypes !! toLowerCase ext = Some mime ->
  getMimeType (base +:+ "." +:+ ext) = VString mime
  /\ getMimeType ext = VString mime.
Proof.
  intros Hdot Hmime.
  assert (getMimeType ext = VString mime) as Hext.
  2:{ split; [| done]. unfold getMimeType in *.
      by rewrite file_extension_after_dot. }
  apply getMimeType_recognized.
  unfold file_extension, pop. rewrite (split_no_sep _ _ Hdot). simpl.
  destruct (String.eqb (toLowerCase ext) EmptyString) eqn:Hempty; [| done].
  apply String.eqb_eq in Hempty. rewrite Hempty in Hmime.
  vm_compute in Hmime. discriminate.
Qed.

Lemma getMimeType_known_extension_witness :
  (has_code_unit "." "PDF" = false
   /\ mimeTypes !! toLowerCase "PDF" = Some "application/pdf")
  /\ getMimeType ("Q3 Report" +:+ "." +:+ "PDF") = VString "application/pdf"
  /\ getMimeType "PDF" = VString "application/pdf".
Proof.
  split; [split; reflexivity |].
  apply (getMimeType_known_extension "Q3 Report" "PDF" "application/pdf");
    reflexivity.
Defined.

(** X8: The complete behaviour of the lookup, by the lower-cased last
    dot-separated segment of the name: the table entry for one of the
    seven keys; the function [Object] for "constructor" and the object
    [Object.prototype] for "__proto__", which are not strings; the default
    type "application/octet-stream" for everything else, the empty segment
    included. *)
Theorem getMimeType_characterisation (fileName : string) :
  getMimeType fileName
  = match mimeTypes !! extension_key fileName with
    | Some mime => VString mime
    | None =>
        if String.eqb (extension_key fileName) "constructor"
        then VFunction "Object"
        else if String.eqb (extension_key fileName) "__proto__"
        then VObject "Object.prototype"
        else VString "application/octet-stream"
    end.
Proof.
  pose proof (extension_key_lower fileName) as Hlower.
  destruct (mimeTypes !! extension_key fileName) as [mime |] eqn:Hmime.
  { by apply getMimeType_recognized. }
  unfold getMimeType, get_property. fold (extension_key fileName).
  rewrite Hmime.
  destruct (String.eqb (extension_key fileName) "constructor") eqn:Hc.
  { apply String.eqb_eq in Hc. by rewrite Hc. }
  destruct (String.eqb (extension_key fileName) "__proto__") eqn:Hp.
  { apply String.eqb_eq in Hp. by rewrite Hp. }
  apply String.eqb_neq in Hc, Hp.
  assert (Object_prototype !! extension_key fileName = None) as ->; [| done].
  apply not_elem_of_list_to_map_1. simpl.
  rewrite !not_elem_of_cons.
  repeat split; try done; try apply not_elem_of_nil;
    intros Heq; rewrite Heq in Hlower; vm_compute in Hlower; discriminate.
Qed.

(** ** The helpers and handlers of the route *)

(** X9: [callMCPServer] never throws: whatever the server does, it sends
    exactly one request and returns a result object.  [success] is true
    exactly when the request resolved with a status in 200-299 and a body
    that parsed to a value other than [null] whose [error] member is
    absent or falsy; a rejected request, any other status, a body that does
    not parse, the body [null] and a truthy [error] member all give
    [success: false]. *)
Theorem callMCPServer_never_throws {char : Type} (w : World char)
    (tool : string) (args : McpArgs) :
  exists r,
    callMCPServer w tool args
    = (Normal r, [McpRequest (mcp_url w) tool args])
    /\ (mcp_success r = true
        <-> exists resp data,
              mcp_reply w tool args = Resolved resp
              /\ 200 <= http_status resp <= 299
              /\ http_json resp = inr (JsonValue data)
              /\ truthy_error_text (data_error data) = None).
Proof.
  destruct (mcp_failure_message (mcp_reply w tool args)) as [text |] eqn:Hm.
  - rewrite (callMCPServer_failure w tool args text Hm).
    eexists. split; [done |]. split; [done |].
    intros (resp & data & Hreply & Hstatus & Hjson & Herror).
    unfold mcp_failure_message in Hm. rewrite Hreply in Hm.
    assert (http_ok resp = true) as Hok
      by (unfold http_ok; apply andb_true_iff; lia).
    rewrite Hok, Hjson, Herror in Hm. discriminate.
  - destruct (callMCPServer_success w tool args Hm) as (c & md & ->).
    eexists. split; [done |]. split; [intros _ | done].
    unfold mcp_failure_message in Hm.
    destruct (mcp_reply w tool args) as [e | resp]; [done |].
    destruct (http_ok resp) eqn:Hok; simpl in Hm; [| done].
    destruct (http_json resp) as [e | [| data]] eqn:Hjson; [done | done |].
    destruct (truthy_error_text (data_error data)) eqn:Herror; [done |].
    exists resp, data. unfold http_ok in Hok.
    apply andb_true_iff in Hok. repeat split; try done; lia.
Qed.

(** A reply with status 200 and the JSON body [null]: reading [data.error]
    throws inside the [try], so [callMCPServer] returns [success: false],
    and reading [result.document_id] throws, so [addDocumentToOnyx] takes
    its fallback. *)
Lemma null_body_is_a_failure :
  callMCPServer null_body_world "read_file" (read_file_args notes_request)
  = (Normal (McpFailure
               ("MCP server call failed: "
                +:+ "Cannot read properties of null (reading 'error')")),
     [McpRequest "http://localhost:8001/mcp" "read_file"
        (read_file_args notes_request)])
  /\ mcp_failed (mcp_reply null_body_world "read_file"
                   (read_file_args notes_request)) = true
  /\ fetch_failed (onyx_reply null_body_world sample_document) = true
  /\ exists log,
       addDocumentToOnyx null_body_world sample_document
       = (Normal {| onyx_success := true;
                    onyx_documentId := VString "doc_k3j9x0q2a";
                    onyx_fileId := VString "file_p0o9i8u7y";
                    onyx_chunk_total := 1;
                    onyx_warning :=
                      Some "Onyx backend not available - using fallback" |},
          log).
Proof. repeat split. by eexists. Qed.

(** X10: A reply whose HTTP status is below 200 or above 299 is a failure even
    when its body carries a result: the result object has [success] false
    and the error text names the status. *)
Theorem callMCPServer_status_out_of_range {char : Type} (w : World char)
    (tool : string) (args : McpArgs) (resp : HttpResponse (Json McpData)) :
  mcp_reply w tool args = Resolved resp ->
  http_status resp < 200 \/ 299 < http_status resp ->
  callMCPServer w tool args
  = (Normal (McpFailure
               ("MCP server call failed: "
                +:+ ("MCP server responded with status: "
                     +:+ number_to_string (http_status resp)))),
     [McpRequest (mcp_url w) tool args]).
Proof.
  intros Hreply Hstatus. apply callMCPServer_failure.
  unfold mcp_failure_message. rewrite Hreply.
  assert (http_ok resp = false) as ->; [| done].
  unfold http_ok. apply andb_false_iff.
  destruct Hstatus; [left | right]; lia.
Qed.

Lemma callMCPServer_status_out_of_range_witness :
  (mcp_reply not_found_world "read_file" (read_file_args notes_request)
   = Resolved {| http_status := 404;
                 http_json := inr (JsonValue
                   {| data_error := None;
                      data_result := Some
                        {| result_content := Some (Text "SGk=");
                           result_metadata := None |} |}) |}
   /\ (404 < 200 \/ 299 < 404))
  /\ callMCPServer not_found_world "read_file" (read_file_args notes_request)
     = (Normal (McpFailure
                  ("MCP server call failed: "
                   +:+ ("MCP server responded with status: "
                        +:+ number_to_string 404))),
        [McpRequest (mcp_url not_found_world) "read_file"
           (read_file_args notes_request)]).
Proof.
  split; [split; [reflexivity | right; lia] |].
  apply (callMCPServer_status_out_of_range not_found_world "read_file"
           (read_file_args notes_request) _ eq_refl).
  right. simpl. lia.
Defined.

(** X11: [GET] never reports a failure: it always answers status 200 with
    [success: true] after exactly one request to the MCP server, and the
    answer carries a warning exactly when that request failed. *)
Theorem GET_never_fails {char : Type} (w : World char) :
  exists files warning,
    GET w
    = (Normal {| status := 200; body := Listing true files warning |},
       [McpRequest (mcp_url w) "list_directory" (list_directory_args w)])
    /\ (warning = None
        <-> mcp_failed (mcp_reply w "list_directory" (list_directory_args w))
            = false).
Proof.
  destruct (mcp_failed (mcp_reply w "list_directory" (list_directory_args w)))
    eqn:Hfailed.
  - rewrite (GET_mcp_failure w Hfailed). eexists _, _. split; [done |].
    split; discriminate.
  - unfold mcp_failed in Hfailed.
    destruct (mcp_failure_message _) as [text |] eqn:Hm; [done |].
    destruct (callMCPServer_success w _ _ Hm) as (c & md & Hcall).
    unfold GET, list_directory_args in *.
    unfold try_catch at 1, bind at 1. rewrite Hcall. simpl.
    by eexists _, _.
Qed.

(** X12: When the [list_directory] call goes through, [GET] passes the content
    of the reply on unchanged and without a warning; a reply without
    result or content, or with the empty string as content, becomes the
    empty list of files. *)
Theorem GET_success_listing {char : Type} (w : World char)
    (resp : HttpResponse (Json McpData)) (data : McpData) :
  mcp_reply w "list_directory" (list_directory_args w) = Resolved resp ->
  http_ok resp = true ->
  http_json resp = inr (JsonValue data) ->
  truthy_error_text (data_error data) = None ->
  GET w
  = (Normal {| status := 200;
               body := Listing true
                 (listed_files (data_result data ≫= result_content)) None |},
     [McpRequest (mcp_url w) "list_directory" (list_directory_args w)]).
Proof.
  unfold mcp_reply, mcp_url, list_directory_args.
  intros Hreply Hok Hjson Herror.
  unfold GET, callMCPServer, fetch_json, try_catch, bind, emit, throw, ret.
  simpl. rewrite Hreply. simpl. rewrite Hok, Hjson. simpl.
  rewrite Herror. simpl.
  destruct (data_result data ≫= result_content) as [[s | fs] |]; simpl;
    [| done | done].
  destruct (String.eqb s EmptyString) eqn:Hempty; simpl;
    by rewrite ?Hempty.
Qed.

Lemma GET_success_listing_witness :
  (mcp_reply healthy_world "list_directory" (list_directory_args healthy_world)
   = Resolved listing_response
   /\ http_ok listing_response = true
   /\ http_json listing_response = inr (JsonValue listing_data)
   /\ truthy_error_text (data_error listing_data) = None)
  /\ GET healthy_world
     = (Normal {| status := 200;
                  body := Listing true
                    (listed_files (data_result listing_data ≫= result_content))
                    None |},
        [McpRequest (mcp_url healthy_world) "list_directory"
           (list_directory_args healthy_world)]).
Proof.
  split; [repeat split |].
  apply (GET_success_listing healthy_world listing_response listing_data);
    reflexivity.
Defined.

(** X13: In the metadata of a processed document the eight entries that the
    route writes replace entries of the same name that came from the MCP
    server, and every other entry of the server is kept as it came. *)
Theorem processDocumentContent_metadata_merge {char : Type} (w : World char)
    (fileName filePath fileType : string) (content : McpContent)
    (metadata : gmap string JSValue) :
  exists d,
    processDocumentContent w fileName filePath fileType content metadata
    = (Normal d, [])
    /\ doc_metadata d !! "fileName" = Some (VString fileName)
    /\ doc_metadata d !! "filePath" = Some (VString filePath)
    /\ doc_metadata d !! "fileType" = Some (VString fileType)
    /\ doc_metadata d !! "processedAt" = Some (VString (toISOString w 0))
    /\ doc_metadata d !! "source" = Some (VString "local_file")
    /\ doc_metadata d !! "mcpProcessed" = Some (VBoolean true)
    /\ forall key : string,
         key ∉ processed_keys -> doc_metadata d !! key = metadata !! key.
Proof.
  destruct (processDocumentContent_result w fileName filePath fileType
              content metadata) as (d & Hrun & _ & _ & _ & Hmd).
  exists d. split; [done |]. rewrite Hmd.
  repeat (split; [by simplify_map_eq |]).
  intros key Hkey. unfold processed_keys in Hkey.
  rewrite !not_elem_of_cons in Hkey.
  destruct Hkey as (? & ? & ? & ? & ? & ? & ? & ? & _).
  by rewrite !lookup_insert_ne.
Qed.






